(** * Projeto-Visu-Dados: the sales data generator and the sales dashboard

    A shallow embedding of the two scripts of the repository,

    - [Projeto-1/gerar_arquivos_csv_vendas.py], which writes five CSV tables
      of fictitious sales data (module [Gerador] below), and
    - [dashboard_vendas_projeto.py], which loads four of them, joins them,
      derives the business columns, filters the joined table through the
      sidebar widgets and aggregates it for the charts (module [Painel]).

    The embedding covers the generator whole and, of the dashboard, the
    loading, the joins, the calculated columns, the sidebar filter, the KPIs,
    the monthly series, the distribution by region, the Top-N rankings and
    the choice of columns of the product detail table (module [Detalhes]).
    The drawing of widgets and charts and the aggregation behind the product
    detail table are left out.

    Python [float]s are IEEE 754 binary64 numbers and are modelled by Rocq's
    primitive floats, which are the same format with the same rounding.
    Python and pandas integers are modelled by [Z].  Instants are counted in
    seconds since the epoch, calendar days in days since the epoch. *)

From Stdlib Require Import ZArith List String Ascii Floats Lia Permutation Sorted.
From stdpp Require Import gmap strings list pretty sorting.

Set Warnings "-inexact-float".
Local Open Scope Z_scope.

(** ** Results of code that may raise *)

Inductive Erro : Type :=
  | IndexError
  | KeyError
  | TypeError
  | FileNotFoundError.

Inductive Res (A : Type) : Type :=
  | Ok (a : A)
  | Falha (e : Erro).
Arguments Ok {A} a.
Arguments Falha {A} e.

(** ** Floating point helpers *)

(** Conversion of an integer to a float, as [float(q)] does: the nearest
    binary64 number, ties to even. *)
Definition float_of_Z (z : Z) : float :=
  SF2Prim (binary_normalize prec emax z 0 false).

(** [n / d] rounded to the nearest integer, ties to even, for [0 < d]. *)
Definition div_meio_par (n d : Z) : Z :=
  let q := n / d in
  let r := n mod d in
  match Z.compare (2 * r) d with
  | Lt => q
  | Gt => q + 1
  | Eq => if Z.even q then q else q + 1
  end.

(** Python's [round(x, 2)] on a float.  CPython converts [x] to the
    correctly rounded decimal string with two digits after the point and reads
    that string back, so the result is the binary64 number nearest to
    [h / 100], where [h] is the exact value of [100 * x] rounded to an
    integer, ties to even.  Infinities and NaN round to themselves, and a
    result of zero keeps the sign of [x]. *)
Definition round2 (x : float) : float :=
  match Prim2SF x with
  | S754_finite s m e =>
      let h := if 0 <=? e
               then Z.pos m * 2 ^ e * 100
               else div_meio_par (Z.pos m * 100) (2 ^ (- e)) in
      match h with
      | Zpos p => SF2Prim (SFdiv prec emax (S754_finite s p 0)
                                           (S754_finite false 100 0))
      | _ => SF2Prim (S754_zero s)
      end
  | _ => x
  end.

(** ** The generator script *)

Module Fornecedor.
Record t : Type := Novo {
  id_fornecedor : Z;
  nome_fornecedor : string;
  contato_fornecedor : string;
  email_fornecedor : string;
  telefone_fornecedor : string
}.
End Fornecedor.

Module Produto.
Record t : Type := Novo {
  id_produto : Z;
  nome_produto : string;
  categoria_produto : string;
  preco_custo : float;
  preco_venda_unitario : float;
  id_fornecedor : Z
}.
End Produto.

Module Cliente.
Record t : Type := Novo {
  id_cliente : Z;
  nome_cliente : string;
  email_cliente : string;
  telefone_cliente : string;
  endereco_cliente : string;
  cidade_cliente : string;
  estado_cliente : string;
  pais_cliente : string;
  regiao_cliente : string;
  data_cadastro : Z            (* a calendar day *)
}.
End Cliente.

Module Vendedor.
Record t : Type := Novo {
  id_vendedor : Z;
  nome_vendedor : string;
  email_vendedor : string;
  matricula_vendedor : string;
  equipe_vendas : string
}.
End Vendedor.

Module Venda.
Record t : Type := Novo {
  id_venda : Z;
  id_produto : Z;
  id_cliente : Z;
  id_vendedor : Z;
  data_venda : Z;              (* an instant *)
  quantidade_vendida : Z;
  valor_total_venda : float;
  metodo_pagamento : string
}.
End Venda.

(** The five tables, as the generator writes them and as the dashboard reads
    them back. *)
Record Tabelas : Type := {
  fornecedores_df : list Fornecedor.t;
  produtos_df : list Produto.t;
  clientes_df : list Cliente.t;
  vendedores_df : list Vendedor.t;
  vendas_df : list Venda.t
}.

Module Gerador.

(** *** The sources of randomness

    [random] and [Faker] are outside the repository.  Every call draws the
    next cell of a tape: a number for [random], a text for [Faker].  The
    tapes are arbitrary, so a property proved for every [Fonte] holds for
    every outcome of the draws.  [agora] is the clock read by Faker's
    relative dates.  Faker's [unique] proxy redraws a value it has already
    given; it raises after a thousand failed redraws, which ends the script
    before any file is written, and that ending is not part of the model. *)
Record Fonte : Type := {
  sorteios : nat -> Z;
  textos : nat -> string;
  lidos : nat;
  agora : Z
}.

Definition avanca (w : Fonte) : Fonte :=
  {| sorteios := sorteios w; textos := textos w;
     lidos := S (lidos w); agora := agora w |}.

(** State and exception monad of the script. *)
Definition M (A : Type) : Type := Fonte -> Res (A * Fonte).

#[export] Instance M_ret : MRet M := fun A a w => Ok (a, w).
#[export] Instance M_bind : MBind M := fun A B f m w =>
  match m w with
  | Ok (a, w') => f a w'
  | Falha e => Falha e
  end.

Definition levanta {A} (e : Erro) : M A := fun _ => Falha e.

Definition sorteio : M Z := fun w => Ok (sorteios w (lidos w), avanca w).
Definition texto : M string := fun w => Ok (textos w (lidos w), avanca w).
Definition relogio : M Z := fun w => Ok (agora w, w).

(** [random._randbelow(n)]: some integer of [0, n). *)
Definition randbelow (n : Z) : M Z := k ← sorteio; mret (k mod n).

(** [random.random()]: [k / 2^53] for some [0 <= k < 2^53]. *)
Definition random : M float :=
  k ← randbelow (2 ^ 53);
  mret (float_of_Z k / float_of_Z (2 ^ 53))%float.

(** [random.uniform(a, b)] is [a + (b - a) * random()]. *)
Definition uniform (a b : float) : M float :=
  r ← random; mret (a + (b - a) * r)%float.

(** [random.randint(a, b)] is [a + _randbelow(b - a + 1)]. *)
Definition randint (a b : Z) : M Z :=
  k ← randbelow (b - a + 1); mret (a + k).

(** [random.choice(seq)] is [seq[_randbelow(len(seq))]] and raises
    [IndexError] on an empty sequence. *)
Definition choice {A} (l : list A) : M A :=
  match l with
  | [] => levanta IndexError
  | _ => k ← randbelow (Z.of_nat (length l));
         match l !! Z.to_nat k with
         | Some x => mret x
         | None => levanta IndexError
         end
  end.

(** Faker providers that return a text. *)
Definition fake_texto : M string := texto.

(** [fake.unique.random_number(digits=5)]: an integer below [10^5]. *)
Definition fake_random_number (digits : Z) : M Z := randbelow (10 ^ digits).

(** [fake.date_between(start_date='-3y', end_date='today')]: a day of the
    last [anos] years of 365 days. *)
Definition fake_date_between (anos : Z) : M Z :=
  t ← relogio; k ← randbelow (365 * anos + 1);
  mret (t / 86400 - k).

(** [fake.date_time_between(start_date='-2y', end_date='now')]. *)
Definition fake_date_time_between (anos : Z) : M Z :=
  t ← relogio; k ← randbelow (365 * anos * 86400 + 1);
  mret (t - k).

(** [for i in range(...): dados.append(f(i))]. *)
Fixpoint para_cada {A} (f : Z -> M A) (ids : list Z) : M (list A) :=
  match ids with
  | [] => mret []
  | i :: resto => x ← f i; xs ← para_cada f resto; mret (x :: xs)
  end.

(** [range(1, n + 1)]. *)
Definition range1 (n : Z) : list Z := seqZ 1 n.

(** *** Configuration *)
Definition NUM_FORNECEDORES : Z := 10.
Definition NUM_PRODUTOS : Z := 50.
Definition NUM_CLIENTES : Z := 200.
Definition NUM_VENDEDORES : Z := 20.
Definition NUM_VENDAS : Z := 1000.

Definition categorias_produto : list string :=
  ["Eletrônicos"; "Livros"; "Roupas"; "Alimentos"; "Móveis"; "Brinquedos";
   "Esportes"]%string.
Definition regioes_cliente : list string :=
  ["Norte"; "Nordeste"; "Centro-Oeste"; "Sudeste"; "Sul"]%string.
Definition equipes_vendas : list string :=
  ["Equipe Alpha"; "Equipe Beta"; "Equipe Gamma"; "Equipe Delta"]%string.
Definition metodos_pagamento : list string :=
  ["Cartão de Crédito"; "Boleto Bancário"; "PIX"; "Débito Online";
   "Transferência Bancária"]%string.

(** [str.capitalize()] is applied to Faker's words; Faker is a text
    source here, so the capitalised word is the text drawn. *)
Definition palavra : M string := fake_texto.

Definition gerar_fornecedor (i : Z) : M Fornecedor.t :=
  nome ← fake_texto; contato ← fake_texto; email ← fake_texto;
  telefone ← fake_texto;
  mret (Fornecedor.Novo i nome contato email telefone).

Definition gerar_produto (fornecedor_ids : list Z) (i : Z) : M Produto.t :=
  u ← uniform 5 500;
  let custo := round2 u in
  m ← uniform 1.2 2.5;
  let preco_venda := round2 (custo * m)%float in
  p1 ← palavra; p2 ← palavra;
  categoria ← choice categorias_produto;
  f ← choice fornecedor_ids;
  mret (Produto.Novo i (p1 +:+ " " +:+ p2) categoria custo preco_venda f).

Definition gerar_cliente (i : Z) : M Cliente.t :=
  nome ← fake_texto; email ← fake_texto; telefone ← fake_texto;
  endereco ← fake_texto; cidade ← fake_texto; estado ← fake_texto;
  regiao ← choice regioes_cliente;
  cadastro ← fake_date_between 3;
  mret (Cliente.Novo i nome email telefone endereco cidade estado "Brasil"
                     regiao cadastro).

Definition gerar_vendedor (i : Z) : M Vendedor.t :=
  nome ← fake_texto; email ← fake_texto;
  n ← fake_random_number 5;
  equipe ← choice equipes_vendas;
  mret (Vendedor.Novo i nome email ("V" +:+ pretty n) equipe).

(** [produtos_df.set_index('id_produto')['preco_venda_unitario'].to_dict()]:
    a later row overwrites an earlier one with the same id. *)
Definition to_dict (produtos : list Produto.t) : gmap Z float :=
  foldl (fun d p => <[Produto.id_produto p := Produto.preco_venda_unitario p]> d)
        ∅ produtos.

(** [d[k]], which raises [KeyError] when [k] is absent. *)
Definition item (d : gmap Z float) (k : Z) : M float :=
  match d !! k with
  | Some v => mret v
  | None => levanta KeyError
  end.

Definition gerar_venda (produto_ids cliente_ids vendedor_ids : list Z)
    (precos_produtos : gmap Z float) (i : Z) : M Venda.t :=
  id_prod ← choice produto_ids;
  quantidade ← randint 1 10;
  preco_unitario_prod ← item precos_produtos id_prod;
  let valor_total := round2 (preco_unitario_prod * float_of_Z quantidade)%float in
  data_venda ← fake_date_time_between 2;
  id_cli ← choice cliente_ids;
  id_vend ← choice vendedor_ids;
  metodo ← choice metodos_pagamento;
  mret (Venda.Novo i id_prod id_cli id_vend data_venda quantidade
                   valor_total metodo).

(** The script, up to the five [to_csv] calls: the tables it returns are
    the files it writes. *)
Definition gerar : M Tabelas :=
  fornecedores ← para_cada gerar_fornecedor (range1 NUM_FORNECEDORES);
  let fornecedor_ids := map Fornecedor.id_fornecedor fornecedores in
  produtos ← para_cada (gerar_produto fornecedor_ids) (range1 NUM_PRODUTOS);
  clientes ← para_cada gerar_cliente (range1 NUM_CLIENTES);
  vendedores ← para_cada gerar_vendedor (range1 NUM_VENDEDORES);
  let produto_ids := map Produto.id_produto produtos in
  let cliente_ids := map Cliente.id_cliente clientes in
  let vendedor_ids := map Vendedor.id_vendedor vendedores in
  let precos_produtos := to_dict produtos in
  vendas ← para_cada
    (gerar_venda produto_ids cliente_ids vendedor_ids precos_produtos)
    (range1 NUM_VENDAS);
  mret {| fornecedores_df := fornecedores; produtos_df := produtos;
          clientes_df := clientes; vendedores_df := vendedores;
          vendas_df := vendas |}.

(** A concrete source, for running the script: the draws of a linear
    congruential generator. *)
Definition fonte_exemplo : Fonte :=
  {| sorteios := fun i =>
       (Z.of_nat i * 6364136223846793005 + 1442695040888963407) mod 2 ^ 64;
     textos := fun i => "t" +:+ pretty (Z.of_nat i);
     lidos := 0;
     agora := 1700000000 |}.

End Gerador.

(** ** Sorting

    CPython's [sorted] and the sorts behind pandas' [groupby] and [nlargest]
    are outside the repository.  They are modelled by one stable insertion
    sort: [insere x l] puts [x] in front of the first element it is allowed
    to precede, so elements that compare equal keep their order. *)

Section Ordenacao.
Context {A : Type} (leb : A -> A -> bool).

Fixpoint insere (x : A) (l : list A) : list A :=
  match l with
  | [] => [x]
  | y :: r => if leb x y then x :: l else y :: insere x r
  end.

Definition ordena (l : list A) : list A := foldr insere [] l.

End Ordenacao.

(** ** The dashboard script *)

#[export] Instance Res_ret : MRet Res := fun A a => Ok a.
#[export] Instance Res_bind : MBind Res := fun A B f m =>
  match m with
  | Ok a => f a
  | Falha e => Falha e
  end.

Module Painel.

(** *** Loading *)

(** The files of the working directory: [None] is a file that does not
    exist.  A file that exists holds a table of its schema with every cell
    filled, as the generator writes it. *)
Record Disco : Type := {
  produtos_csv : option (list Produto.t);
  clientes_csv : option (list Cliente.t);
  vendedores_csv : option (list Vendedor.t);
  vendas_csv : option (list Venda.t);
  fornecedores_csv : option (list Fornecedor.t)
}.

(** [pd.read_csv], raising [FileNotFoundError] on a missing file. *)
Definition read_csv {A} (arquivo : option (list A)) : Res (list A) :=
  match arquivo with
  | Some t => Ok t
  | None => Falha FileNotFoundError
  end.

(** [load_data]: the four [read_csv] calls of the [try] block; the
    [except] branch returns four [None]s, here a single [None].  The line
    that would read [fornecedores.csv] is commented out in the source.  The
    two [pd.to_datetime] conversions are the identity on typed tables, and
    [st.cache_data] only saves recomputing the same value. *)
Definition load_data (d : Disco)
    : option (list Produto.t * list Cliente.t * list Vendedor.t * list Venda.t) :=
  let tentativa : Res _ :=
    produtos_df ← read_csv (produtos_csv d);
    clientes_df ← read_csv (clientes_csv d);
    vendedores_df ← read_csv (vendedores_csv d);
    vendas_df ← read_csv (vendas_csv d);
    mret (produtos_df, clientes_df, vendedores_df, vendas_df) in
  match tentativa with
  | Ok r => Some r
  | Falha _ => None
  end.

(** *** Transformation *)

(** [pd.merge(esq, dir, on=chave, how='left')]: every left row, in order,
    paired with each right row of the same key, in order; a left row without
    a match is kept once, with the right columns null. *)
Definition merge_left {L R} (chave_esq : L -> Z) (chave_dir : R -> Z)
    (esq : list L) (dir : list R) : list (L * option R) :=
  esq ≫= fun l =>
    match filter (fun r => chave_dir r = chave_esq l) dir with
    | [] => [(l, None)]
    | iguais => (fun r => (l, Some r)) <$> iguais
    end.

(** Calendar date of a day number (days since 1970-01-01), in the
    proleptic Gregorian calendar. *)
Definition civil (dia : Z) : Z * Z * Z :=
  let z := dia + 719468 in
  let era := z / 146097 in
  let doe := z - era * 146097 in
  let yoe := (doe - doe / 1460 + doe / 36524 - doe / 146096) / 365 in
  let doy := doe - (365 * yoe + yoe / 4 - yoe / 100) in
  let mp := (5 * doy + 2) / 153 in
  let d := doy - (153 * mp + 2) / 5 + 1 in
  let m := if mp <? 10 then mp + 3 else mp - 9 in
  let y := yoe + era * 400 + (if m <=? 2 then 1 else 0) in
  (y, m, d).

Definition segundos_por_dia : Z := 86400.

(** [.dt.date] of an instant. *)
Definition data (instante : Z) : Z := instante / segundos_por_dia.

(** [.dt.year]. *)
Definition ano (instante : Z) : Z := (civil (data instante)).1.1.

Definition dois_digitos (n : Z) : string :=
  if n <? 10 then "0" +:+ pretty n else pretty n.

(** [.dt.to_period('M').astype(str)]: the text [YYYY-MM]. *)
Definition ano_mes (instante : Z) : string :=
  let '(y, m, _) := civil (data instante) in
  pretty y +:+ "-" +:+ dois_digitos m.

(** A float column cell: a null cell is NaN. *)
Definition celula (c : option float) : float := default nan c.

(** [Series.fillna(0)]. *)
Definition fillna0 (x : float) : float := if is_nan x then 0%float else x.

(** A row of [df_merged]: the sale, the attributes of its product,
    customer and seller ([None] when the key has no match: all the columns
    that come from that table are then null), and the calculated columns. *)
Record Linha : Type := {
  venda : Venda.t;
  produto : option Produto.t;
  cliente : option Cliente.t;
  vendedor : option Vendedor.t;
  lucro_venda : float;
  margem_lucro_percentual : float;
  ano_mes_venda : string;
  ano_venda : Z
}.

(** The calculated columns of one joined row. *)
Definition calcular
    (j : Venda.t * option Produto.t * option Cliente.t * option Vendedor.t) : Linha :=
  let '(v, p, c, s) := j in
  let lucro :=
    ((celula (Produto.preco_venda_unitario <$> p) - celula (Produto.preco_custo <$> p))
     * float_of_Z (Venda.quantidade_vendida v))%float in
  let margem := (lucro / Venda.valor_total_venda v * 100)%float in
  {| venda := v; produto := p; cliente := c; vendedor := s;
     lucro_venda := lucro;
     margem_lucro_percentual := fillna0 margem;
     ano_mes_venda := ano_mes (Venda.data_venda v);
     ano_venda := ano (Venda.data_venda v) |}.

(** The three merges and the calculated columns. *)
Definition transformar (produtos_df : list Produto.t) (clientes_df : list Cliente.t)
    (vendedores_df : list Vendedor.t) (vendas_df : list Venda.t) : list Linha :=
  let df1 := merge_left Venda.id_produto Produto.id_produto vendas_df produtos_df in
  let df2 := merge_left (fun j => Venda.id_cliente j.1) Cliente.id_cliente
                        df1 clientes_df in
  let df3 := merge_left (fun j => Venda.id_vendedor j.1.1) Vendedor.id_vendedor
                        df2 vendedores_df in
  calcular <$> df3.

(** The script up to [df_merged]: [None] is [st.stop()]. *)
Definition df_merged_de (d : Disco) : option (list Linha) :=
  '(produtos_df, clientes_df, vendedores_df, vendas_df) ← load_data d;
  Some (transformar produtos_df clientes_df vendedores_df vendas_df).

(** Columns of [df_merged]. *)
Definition id_venda (r : Linha) : Z := Venda.id_venda (venda r).
Definition data_venda (r : Linha) : Z := Venda.data_venda (venda r).
Definition quantidade_vendida (r : Linha) : Z := Venda.quantidade_vendida (venda r).
Definition valor_total_venda (r : Linha) : float := Venda.valor_total_venda (venda r).
Definition nome_produto (r : Linha) : option string :=
  Produto.nome_produto <$> produto r.
Definition categoria_produto (r : Linha) : option string :=
  Produto.categoria_produto <$> produto r.
Definition nome_cliente (r : Linha) : option string :=
  Cliente.nome_cliente <$> cliente r.
Definition regiao_cliente (r : Linha) : option string :=
  Cliente.regiao_cliente <$> cliente r.
Definition nome_vendedor (r : Linha) : option string :=
  Vendedor.nome_vendedor <$> vendedor r.

(** *** The sidebar *)

(** What the date range widget hands back: a pair of dates, a single date,
    or anything else (a tuple that is not a pair while the range is being
    picked). *)
Inductive DateInput : Type :=
  | Intervalo (inicio fim : Z)
  | DataUnica (d : Z)
  | OutroRetorno.

(** The state of the sidebar widgets.  An entry of a multiselect is a
    text or the null option ([None]) that a null cell of the column adds to
    the options.  [data_da_venda] is the single-date widget, shown when all
    the sales fall on one day. *)
Record Barra : Type := {
  periodo_da_venda : DateInput;
  data_da_venda : Z;
  produtos : list (option string);
  categorias : list (option string);
  clientes : list (option string);
  regioes : list (option string);
  vendedores : list (option string)
}.

(** [Series.unique().tolist()]: the distinct values, in order of first
    appearance. *)
Fixpoint unique `{EqDecision A} (l : list A) : list A :=
  match l with
  | [] => []
  | x :: r => x :: filter (fun y => y <> x) (unique r)
  end.

(** [sorted] on the values of a text column.  Texts are compared by code
    point.  A null cell is the float NaN: comparing it with a text raises
    [TypeError], and comparing it with another NaN is false, which leaves a
    list of NaNs as it is. *)
Definition sorted (l : list (option string)) : Res (list (option string)) :=
  if bool_decide (Forall is_Some l) then Ok (Some <$> ordena String.leb (omap id l))
  else if bool_decide (Forall (fun c => c = None) l) then Ok l
  else Falha TypeError.

(** The options of one multiselect, without the select-all entry. *)
Definition opcoes (coluna : Linha -> option string) (df : list Linha)
    : Res (list (option string)) :=
  sorted (unique (coluna <$> df)).

(** [if 'Todos' in selected: selected = all]. *)
Definition expandir (todos : string) (selected all : list (option string))
    : list (option string) :=
  if bool_decide (Some todos ∈ selected) then all else selected.

(** The dates the filter uses, from the widget and the extreme sale
    dates. *)
Definition periodo (min_date max_date hoje : Z) (b : Barra) : Z * Z :=
  if bool_decide (min_date < max_date) then
    match periodo_da_venda b with
    | Intervalo inicio fim => (inicio, fim)
    | DataUnica d => (d, d)
    | OutroRetorno => (min_date, max_date)
    end
  else if bool_decide (min_date = max_date) then
    (data_da_venda b, data_da_venda b)
  else (hoje, hoje).

(** [df_merged['data_venda'].min().date()] and the same with [max]; the
    script takes them of a table that has a row. *)
Definition min_date (df : list Linha) : Z :=
  match data_venda <$> df with
  | [] => 0
  | t :: ts => data (foldr Z.min t ts)
  end.

Definition max_date (df : list Linha) : Z :=
  match data_venda <$> df with
  | [] => 0
  | t :: ts => data (foldr Z.max t ts)
  end.

(** The boolean mask of [df_filtered]. *)
Definition passa (start_date end_date : Z)
    (selected_products selected_categories selected_clients
     selected_client_regions selected_sellers : list (option string))
    (r : Linha) : Prop :=
  start_date <= data (data_venda r) /\
  data (data_venda r) <= end_date /\
  nome_produto r ∈ selected_products /\
  categoria_produto r ∈ selected_categories /\
  nome_cliente r ∈ selected_clients /\
  regiao_cliente r ∈ selected_client_regions /\
  nome_vendedor r ∈ selected_sellers.

#[export] Instance passa_dec a b sp sc scl sr sv r :
  Decision (passa a b sp sc scl sr sv r).
Proof. unfold passa. apply _. Defined.

(** The sidebar block: from [df_merged] and the widgets to [df_filtered].
    [hoje] is [datetime.now().date()]. *)
Definition df_filtered_de (hoje : Z) (b : Barra) (df_merged : list Linha)
    : Res (list Linha) :=
  match df_merged with
  | [] => Ok df_merged
  | _ :: _ =>
      let '(start_date, end_date) :=
        periodo (min_date df_merged) (max_date df_merged) hoje b in
      all_products ← opcoes nome_produto df_merged;
      let selected_products := expandir "Todos" (produtos b) all_products in
      all_categories ← opcoes categoria_produto df_merged;
      let selected_categories := expandir "Todas" (categorias b) all_categories in
      all_clients ← opcoes nome_cliente df_merged;
      let selected_clients := expandir "Todos" (clientes b) all_clients in
      all_client_regions ← opcoes regiao_cliente df_merged;
      let selected_client_regions :=
        expandir "Todas" (regioes b) all_client_regions in
      all_sellers ← opcoes nome_vendedor df_merged;
      let selected_sellers := expandir "Todos" (vendedores b) all_sellers in
      Ok (filter (passa start_date end_date selected_products selected_categories
                        selected_clients selected_client_regions selected_sellers)
                 df_merged)
  end.

(** *** Aggregation *)

(** [Series.sum()] of a float column: null cells are skipped and the sum
    of nothing is zero.  The cells are added from first to last. *)
Definition soma (l : list float) : float :=
  foldl PrimFloat.add 0%float (filter (fun x => is_nan x = false) l).

(** A 64-bit signed integer, with its wrap-around. *)
Definition int64 (z : Z) : Z := (z + 2 ^ 63) mod 2 ^ 64 - 2 ^ 63.

(** [Series.sum()] of an [int64] column. *)
Definition soma_int (l : list Z) : Z := int64 (foldl Z.add 0 l).

(** [Series.nunique()]. *)
Definition nunique (l : list Z) : Z := Z.of_nat (length (unique l)).

Record KPI : Type := {
  total_vendas_valor : float;
  total_lucro_valor : float;
  num_transacoes : Z;
  ticket_medio : float
}.

(** The four KPIs of the overview tab. *)
Definition kpis (df_filtered : list Linha) : KPI :=
  let total_vendas_valor := soma (valor_total_venda <$> df_filtered) in
  let total_lucro_valor := soma (lucro_venda <$> df_filtered) in
  let num_transacoes := nunique (id_venda <$> df_filtered) in
  {| total_vendas_valor := total_vendas_valor;
     total_lucro_valor := total_lucro_valor;
     num_transacoes := num_transacoes;
     ticket_medio := if bool_decide (num_transacoes > 0)
                     then (total_vendas_valor / float_of_Z num_transacoes)%float
                     else 0%float |}.

Section Agregacao.
Context {V : Type} (total : list V -> V) (nulo : V -> bool) (geb : V -> V -> bool).

(** The group keys of [df.groupby(chave)]: the distinct non-null values
    of the column, sorted ([sort=True] and [dropna=True] are the
    defaults). *)
Definition grupos (chave : Linha -> option string) (df : list Linha) : list string :=
  ordena String.leb (unique (omap chave df)).

(** [df.groupby(chave)[valor].sum()]. *)
Definition groupby_sum (chave : Linha -> option string) (valor : Linha -> V)
    (df : list Linha) : list (string * V) :=
  (fun k => (k, total (valor <$> filter (fun r => chave r = Some k) df)))
    <$> grupos chave df.

(** [Series.nlargest(n)] with the default [keep='first']: the [n] first
    entries in decreasing order of value, entries of equal value in the
    order of the series, null values last. *)
Definition nlargest (n : Z) (s : list (string * V)) : list (string * V) :=
  take (Z.to_nat n)
       (ordena (fun x y => geb x.2 y.2) (filter (fun x => nulo x.2 = false) s)
        ++ filter (fun x => nulo x.2 = true) s).

End Agregacao.

(** The dimensions the rankings group by. *)
Inductive Dimensao : Type := PorVendedor | PorProduto | PorCliente.

Definition coluna (d : Dimensao) : Linha -> option string :=
  match d with
  | PorVendedor => nome_vendedor
  | PorProduto => nome_produto
  | PorCliente => nome_cliente
  end.

(** [x >= y] on floats and on integers. *)
Definition geb_float (x y : float) : bool := (y <=? x)%float.
Definition geb_int (x y : Z) : bool := (y <=? x)%Z.

(** [df_filtered.groupby(d)['valor_total_venda'].sum().nlargest(n)]. *)
Definition top_valor (d : Dimensao) (n : Z) (df_filtered : list Linha)
    : list (string * float) :=
  nlargest is_nan geb_float n (groupby_sum soma (coluna d) valor_total_venda df_filtered).

(** [df_filtered.groupby(d)['quantidade_vendida'].sum().nlargest(n)]. *)
Definition top_quantidade (d : Dimensao) (n : Z) (df_filtered : list Linha)
    : list (string * Z) :=
  nlargest (fun _ => false) geb_int n
           (groupby_sum soma_int (coluna d) quantidade_vendida df_filtered).

Definition df_top_vendedores := top_valor PorVendedor.
Definition df_top_clientes := top_valor PorCliente.

Inductive TipoAnalise : Type := ValorDeVenda | QuantidadeVendida.

Definition df_top_produtos (tipo_analise_produto : TipoAnalise) (n : Z)
    (df_filtered : list Linha) : list (string * float) + list (string * Z) :=
  match tipo_analise_produto with
  | ValorDeVenda => inl (top_valor PorProduto n df_filtered)
  | QuantidadeVendida => inr (top_quantidade PorProduto n df_filtered)
  end.

(** Monthly sums of value and profit, sorted by month. *)
Definition df_evolucao (df_filtered : list Linha) : list (string * (float * float)) :=
  ordena (fun x y => String.leb x.1 y.1)
    (groupby_sum (fun l => (soma (fst <$> l), soma (snd <$> l)))
                 (fun r => Some (ano_mes_venda r))
                 (fun r => (valor_total_venda r, lucro_venda r)) df_filtered).

(** Sum of value by customer region. *)
Definition df_vendas_regiao (df_filtered : list Linha) : list (string * float) :=
  groupby_sum soma regiao_cliente valor_total_venda df_filtered.

(** A tab shows its content, or [st.info] with a message when
    [df_filtered] is empty. *)
Inductive Aba (A : Type) : Type :=
  | Mostra (conteudo : A)
  | Info (mensagem : string).
Arguments Mostra {A} conteudo.
Arguments Info {A} mensagem.

Record VisaoGeral : Type := {
  metricas : KPI;
  evolucao : list (string * (float * float));
  top_vendedores : list (string * float);
  vendas_regiao : list (string * float)
}.

(** The tab "Visão Geral de Vendas". *)
Definition visao_geral (top_n_vendedores : Z) (df_filtered : list Linha)
    : Aba VisaoGeral :=
  match df_filtered with
  | [] => Info "Nenhum dado disponível para os filtros selecionados na Visão Geral de Vendas."
  | _ => Mostra {| metricas := kpis df_filtered;
                   evolucao := df_evolucao df_filtered;
                   top_vendedores := df_top_vendedores top_n_vendedores df_filtered;
                   vendas_regiao := df_vendas_regiao df_filtered |}
  end.

End Painel.

(** ** The generator with its counts as parameters *)

Module Configuravel.
Import Gerador.

(** The block "Configurações de Geração" of the script. *)
Record Config : Type := {
  num_fornecedores : Z;
  num_produtos : Z;
  num_clientes : Z;
  num_vendedores : Z;
  num_vendas : Z
}.

Definition config_padrao : Config :=
  {| num_fornecedores := NUM_FORNECEDORES; num_produtos := NUM_PRODUTOS;
     num_clientes := NUM_CLIENTES; num_vendedores := NUM_VENDEDORES;
     num_vendas := NUM_VENDAS |}.

(** [pd.DataFrame(dados)[nome].tolist()]: a frame built from an empty list
    of rows has no columns, and asking it for one raises [KeyError]. *)
Definition coluna_ids {A} (chave : A -> Z) (dados : list A) : M (list Z) :=
  match dados with
  | [] => levanta KeyError
  | _ => mret (map chave dados)
  end.

(** The script for any counts.  With the counts of [config_padrao] no
    frame is empty and this is [gerar]. *)
Definition gerar_com (c : Config) : M Tabelas :=
  fornecedores ← para_cada gerar_fornecedor (range1 (num_fornecedores c));
  fornecedor_ids ← coluna_ids Fornecedor.id_fornecedor fornecedores;
  produtos ← para_cada (gerar_produto fornecedor_ids) (range1 (num_produtos c));
  clientes ← para_cada gerar_cliente (range1 (num_clientes c));
  vendedores ← para_cada gerar_vendedor (range1 (num_vendedores c));
  produto_ids ← coluna_ids Produto.id_produto produtos;
  cliente_ids ← coluna_ids Cliente.id_cliente clientes;
  vendedor_ids ← coluna_ids Vendedor.id_vendedor vendedores;
  let precos_produtos := to_dict produtos in
  vendas ← para_cada
    (gerar_venda produto_ids cliente_ids vendedor_ids precos_produtos)
    (range1 (num_vendas c));
  mret {| fornecedores_df := fornecedores; produtos_df := produtos;
          clientes_df := clientes; vendedores_df := vendedores;
          vendas_df := vendas |}.

End Configuravel.

(** ** The columns of the product detail table *)

Module Detalhes.

Definition cols_produtos_disponiveis : list string :=
  ["nome_produto"; "categoria_produto"; "preco_venda_unitario"; "preco_custo";
   "quantidade_vendida"; "valor_total_venda"; "lucro_venda";
   "margem_lucro_percentual"].

(** The [default] of the multiselect. *)
Definition selecao_padrao : list string :=
  ["nome_produto"; "categoria_produto"; "quantidade_vendida";
   "valor_total_venda"; "lucro_venda"].

(** The column labels of [df_produtos_detalhes]: the five keys of the
    [groupby], put back as columns by [reset_index], the three named
    aggregations and the margin column assigned last. *)
Definition colunas_df_produtos_detalhes : list string :=
  ["id_produto"; "nome_produto"; "categoria_produto"; "preco_venda_unitario";
   "preco_custo"; "quantidade_total_vendida"; "valor_total_arrecadado";
   "lucro_total_gerado"; "margem_lucro_media_percentual"].

Definition display_cols_itens : list (string * string) :=
  [("nome_produto", "Produto");
   ("categoria_produto", "Categoria");
   ("preco_venda_unitario", "Preço Unit. (R$)");
   ("preco_custo", "Custo Unit. (R$)");
   ("quantidade_total_vendida", "Qtd. Vendida Total");
   ("valor_total_arrecadado", "Receita Total (R$)");
   ("lucro_total_gerado", "Lucro Total (R$)");
   ("margem_lucro_media_percentual", "Margem Lucro Média (%)")].

Definition display_cols_map : gmap string string :=
  list_to_map display_cols_itens.

(** [if opcao in selected: cols.append(coluna)]. *)
Definition acrescenta_se (selected : list string) (opcao coluna : string)
    (cols : list string) : list string :=
  if decide (opcao ∈ selected) then cols ++ [coluna] else cols.

Definition cols_to_show_in_table (selected : list string) : list string :=
  let cols := [] in
  let cols := acrescenta_se selected "nome_produto" "nome_produto" cols in
  let cols := acrescenta_se selected "categoria_produto" "categoria_produto" cols in
  let cols := acrescenta_se selected "preco_venda_unitario" "preco_venda_unitario" cols in
  let cols := acrescenta_se selected "preco_custo" "preco_custo" cols in
  let cols := acrescenta_se selected "quantidade_vendida" "quantidade_total_vendida" cols in
  let cols := acrescenta_se selected "valor_total_venda" "valor_total_arrecadado" cols in
  let cols := acrescenta_se selected "lucro_venda" "lucro_total_gerado" cols in
  let cols := acrescenta_se selected "margem_lucro_percentual"
                "margem_lucro_media_percentual" cols in
  cols.

(** The eight tests above, as pairs of an option of the multiselect and the
    column of the aggregated frame appended for it. *)
Definition opcoes_e_colunas : list (string * string) :=
  [("nome_produto", "nome_produto");
   ("categoria_produto", "categoria_produto");
   ("preco_venda_unitario", "preco_venda_unitario");
   ("preco_custo", "preco_custo");
   ("quantidade_vendida", "quantidade_total_vendida");
   ("valor_total_venda", "valor_total_arrecadado");
   ("lucro_venda", "lucro_total_gerado");
   ("margem_lucro_percentual", "margem_lucro_media_percentual")].

(** [df[cols]] on a frame with the given column labels: the labels picked,
    in the order asked; [KeyError] when one of them is no column. *)
Definition getitem (colunas cols : list string) : Res (list string) :=
  if forallb (fun c => bool_decide (c ∈ colunas)) cols then Ok cols
  else Falha KeyError.

(** [.rename(columns=m)]: a label that is no key of [m] is kept. *)
Definition rename (m : gmap string string) (cols : list string) : list string :=
  (fun c => default c (m !! c)) <$> cols.

(** The column labels of [df_display_produtos]; [None] when nothing is
    selected and the table is replaced by a notice. *)
Definition df_display_produtos (selected : list string)
    : option (Res (list string)) :=
  match selected with
  | [] => None
  | _ :: _ =>
      Some match getitem colunas_df_produtos_detalhes
                   (cols_to_show_in_table selected) with
           | Ok cols => Ok (rename display_cols_map cols)
           | Falha e => Falha e
           end
  end.

End Detalhes.

(** ** The ranking as the specification words it *)

Module Especificacao.
Import Painel.

(** The Top-N ranking by sale value with ties broken "by the stable
    first-encountered grouping order", as the specification puts it: the
    groups are taken in the order in which their keys first appear in the
    rows, and the [n] largest are picked from them, earlier groups first
    among equal sums. *)
Definition top_valor_primeira_ocorrencia (d : Dimensao) (n : Z)
    (df_filtered : list Linha) : list (string * float) :=
  nlargest is_nan geb_float n
    ((fun k => (k, soma (valor_total_venda <$>
                           filter (fun r => coluna d r = Some k) df_filtered)))
       <$> unique (omap (coluna d) df_filtered)).

End Especificacao.

(** ** Small tables, for running the dashboard *)

Module Exemplos.
Import Painel.
Local Open Scope string_scope.

Definition caneta : Produto.t := Produto.Novo 1 "Caneta" "Livros" 5 10 1.
Definition lapis : Produto.t := Produto.Novo 2 "Lapis" "Livros" 10 20 1.
Definition bola : Produto.t := Produto.Novo 3 "Bola" "Esportes" 15 30 1.
(** A second row with the key of [caneta]. *)
Definition caneta_azul : Produto.t := Produto.Novo 1 "Caneta Azul" "Livros" 6 12 1.

Definition ana : Cliente.t :=
  Cliente.Novo 1 "Ana" "ana@exemplo.com" "1111" "Rua A" "Recife" "PE" "Brasil"
               "Nordeste" 19000.

Definition zeca : Vendedor.t := Vendedor.Novo 1 "Zeca" "zeca@exemplo.com" "V10001" "Equipe Alpha".
Definition beto : Vendedor.t := Vendedor.Novo 2 "Beto" "beto@exemplo.com" "V10002" "Equipe Beta".
Definition alice : Vendedor.t := Vendedor.Novo 3 "Alice" "alice@exemplo.com" "V10003" "Equipe Gamma".
Definition caio : Vendedor.t := Vendedor.Novo 4 "Caio" "caio@exemplo.com" "V10004" "Equipe Delta".

(** Instants of 14 and 15 November 2023. *)
Definition dia14 : Z := 1700000000.
Definition dia15 : Z := 1700090000.

(** One sale of two units of the product priced 20.00. *)
Definition venda_lapis : Venda.t := Venda.Novo 1 2 1 1 dia14 2 40 "PIX".
Definition venda_caneta : Venda.t := Venda.Novo 2 1 1 2 dia15 4 40 "PIX".
(** A sale whose product key has no row in the product table. *)
Definition venda_orfa : Venda.t := Venda.Novo 3 9 1 2 dia15 1 30 "PIX".
(** A sale with a total of zero. *)
Definition venda_gratis : Venda.t := Venda.Novo 4 2 1 1 dia15 2 0 "PIX".

Definition disco_simples : Disco :=
  {| produtos_csv := Some [caneta; lapis; bola];
     clientes_csv := Some [ana];
     vendedores_csv := Some [zeca; beto];
     vendas_csv := Some [venda_lapis; venda_caneta];
     fornecedores_csv := None |}.

Definition disco_orfa : Disco :=
  {| produtos_csv := Some [caneta; lapis; bola];
     clientes_csv := Some [ana];
     vendedores_csv := Some [zeca; beto];
     vendas_csv := Some [venda_lapis; venda_caneta; venda_orfa];
     fornecedores_csv := None |}.

Definition disco_chave_repetida : Disco :=
  {| produtos_csv := Some [caneta; caneta_azul];
     clientes_csv := Some [ana];
     vendedores_csv := Some [zeca; beto];
     vendas_csv := Some [venda_caneta];
     fornecedores_csv := None |}.

Definition df_simples : list Linha :=
  transformar [caneta; lapis; bola] [ana] [zeca; beto] [venda_lapis; venda_caneta].

Definition df_orfa : list Linha :=
  transformar [caneta; lapis; bola] [ana] [zeca; beto]
              [venda_lapis; venda_caneta; venda_orfa].

Definition df_gratis : list Linha :=
  transformar [caneta; lapis; bola] [ana] [zeca; beto] [venda_gratis].

(** Four sellers with one sale of 40.00 each, Zeca's first. *)
Definition df_empate : list Linha :=
  transformar [caneta; lapis; bola] [ana] [zeca; beto; alice; caio]
    [ Venda.Novo 1 2 1 1 dia14 2 40 "PIX";
      Venda.Novo 2 2 1 2 dia14 2 40 "PIX";
      Venda.Novo 3 2 1 3 dia15 2 40 "PIX";
      Venda.Novo 4 2 1 4 dia15 2 40 "PIX" ].

(** Select-all in every multiselect and the whole range of [df_simples]
    in the date widget. *)
Definition barra_todos : Barra :=
  {| periodo_da_venda := Intervalo (data dia14) (data dia15);
     data_da_venda := data dia14;
     produtos := [Some "Todos"];
     categorias := [Some "Todas"];
     clientes := [Some "Todos"];
     regioes := [Some "Todas"];
     vendedores := [Some "Todos"] |}.

(** One product and one day picked. *)
Definition barra_lapis : Barra :=
  {| periodo_da_venda := Intervalo (data dia14) (data dia14);
     data_da_venda := data dia14;
     produtos := [Some "Lapis"];
     categorias := [Some "Todas"];
     clientes := [Some "Todos"];
     regioes := [Some "Todas"];
     vendedores := [Some "Todos"] |}.

End Exemplos.

(** ** Vocabulary of the properties *)

Module Propriedades.
Import Gerador Painel.

(** What one generated sale satisfies, given the parent keys and the
    products it was drawn from. *)
Record venda_gerada (produtos : list Produto.t) (cliente_ids vendedor_ids : list Z)
    (v : Venda.t) : Prop := {
  vg_cliente : Venda.id_cliente v ∈ cliente_ids;
  vg_vendedor : Venda.id_vendedor v ∈ vendedor_ids;
  vg_quantidade : 1 <= Venda.quantidade_vendida v <= 10;
  vg_produto : exists p, p ∈ produtos /\
    Produto.id_produto p = Venda.id_produto v /\
    Venda.valor_total_venda v =
      round2 (Produto.preco_venda_unitario p *
              float_of_Z (Venda.quantidade_vendida v))%float
}.

(** What every run of the script writes. *)
Record integra (t : Tabelas) : Prop := {
  int_fornecedores :
    Fornecedor.id_fornecedor <$> fornecedores_df t = range1 NUM_FORNECEDORES;
  int_produtos : Produto.id_produto <$> produtos_df t = range1 NUM_PRODUTOS;
  int_clientes : Cliente.id_cliente <$> clientes_df t = range1 NUM_CLIENTES;
  int_vendedores : Vendedor.id_vendedor <$> vendedores_df t = range1 NUM_VENDEDORES;
  int_vendas : Venda.id_venda <$> vendas_df t = range1 NUM_VENDAS;
  int_fk_produtos :
    Forall (fun p => Produto.id_fornecedor p ∈
                       (Fornecedor.id_fornecedor <$> fornecedores_df t))
           (produtos_df t);
  int_linhas_vendas :
    Forall (venda_gerada (produtos_df t) (Cliente.id_cliente <$> clientes_df t)
                         (Vendedor.id_vendedor <$> vendedores_df t))
           (vendas_df t)
}.

(** A key column that holds exactly 1, 2, ..., [n]. *)
Definition de_1_a (n : Z) (coluna : list Z) : Prop :=
  coluna = seqZ 1 n /\ NoDup coluna /\ coluna <> [] /\
  forall i, i ∈ coluna <-> 1 <= i <= n.

(** How the right side of a joined row relates to the left key. *)
Definition casado {R} (chave : R -> Z) (dir : list R) (k : Z) (o : option R) : Prop :=
  match o with
  | Some r => r ∈ dir /\ chave r = k
  | None => k ∉ (chave <$> dir)
  end.

(** A column of the joined table that is null in every row or in none. *)
Definition uniforme {A} (col : Linha -> option A) (df : list Linha) : Prop :=
  Forall (fun r => is_Some (col r)) df \/ Forall (fun r => col r = None) df.

(** After a stable sort by [leb] of a list in which [R] relates each
    element to the later ones, [x] may stand before [y]: it compares no
    lower, and when the two compare equal it stood before [y] in the
    input. *)
Definition antes {A} (leb : A -> A -> bool) (R : A -> A -> Prop) (x y : A) : Prop :=
  leb x y = true /\ (leb y x = true -> R x y).

(** Texts in increasing order, by code point. *)
Definition texto_menor (a b : string) : Prop := String.ltb a b = true.

(** [x] is ranked before [y] by [nlargest]: a non-null value before a
    null one; of two non-null values the greater first and, when they compare
    equal, the one with the smaller key; null values by key. *)
Definition precede {V} (nulo : V -> bool) (geb : V -> V -> bool)
    (x y : string * V) : Prop :=
  match nulo x.2, nulo y.2 with
  | false, false =>
      geb x.2 y.2 = true /\ (geb y.2 x.2 = true -> texto_menor x.1 y.1)
  | false, true => True
  | true, false => False
  | true, true => texto_menor x.1 y.1
  end.

(** [top] is the Top-[n] of [df] grouped by [chave] and summed over
    [valor]: followed by some [resto], it lists every distinct non-null key
    once, each with the sum of the rows of that key, in ranking order, and it
    has [n] entries, or all of them when there are fewer. *)
Definition ranking_de {V} (total : list V -> V) (nulo : V -> bool)
    (geb : V -> V -> bool) (chave : Linha -> option string) (valor : Linha -> V)
    (n : Z) (df : list Linha) (top : list (string * V)) : Prop :=
  exists resto,
    NoDup (top ++ resto).*1 /\
    (forall k, k ∈ (top ++ resto).*1 <-> Some k ∈ chave <$> df) /\
    (forall k v, (k, v) ∈ top ++ resto ->
       v = total (valor <$> filter (fun r => chave r = Some k) df)) /\
    StronglySorted (precede nulo geb) (top ++ resto) /\
    length top = Nat.min (Z.to_nat n) (length (top ++ resto)).

End Propriedades.

(** ** Vocabulary of the further properties *)

Module Dominios.
Import Gerador Painel.

(** A step of the script that leaves the clock as it found it. *)
Definition preserva {A} (m : M A) : Prop :=
  forall w a w', m w = Ok (a, w') -> agora w' = agora w.






(** A joined row with its product, customer and seller. *)
Definition completa (r : Linha) : Prop :=
  is_Some (produto r) /\ is_Some (cliente r) /\ is_Some (vendedor r).

(** A cell is accepted by a multiselect: the select-all entry is among
    the chosen entries, or the cell is. *)
Definition escolhido (todos : string) (selected : list (option string))
    (c : option string) : Prop :=
  Some todos ∈ selected \/ c ∈ selected.

(** A row is accepted by the sidebar, for the period [p] and the widgets
    [b]. *)
Definition atende (p : Z * Z) (b : Barra) (r : Linha) : Prop :=
  p.1 <= data (data_venda r) /\ data (data_venda r) <= p.2 /\
  escolhido "Todos" (produtos b) (nome_produto r) /\
  escolhido "Todas" (categorias b) (categoria_produto r) /\
  escolhido "Todos" (clientes b) (nome_cliente r) /\
  escolhido "Todas" (regioes b) (regiao_cliente r) /\
  escolhido "Todos" (vendedores b) (nome_vendedor r).

#[export] Instance atende_dec p b r : Decision (atende p b r).
Proof. unfold atende, escolhido. apply _. Defined.

(** [s] is [df] grouped by [chave] and summed over [valor]: its keys are
    the distinct non-null values of the column, in increasing order, and each
    entry's value is the sum over the rows of its key. *)
Definition agrupado {V} (total : list V -> V) (chave : Linha -> option string)
    (valor : Linha -> V) (df : list Linha) (s : list (string * V)) : Prop :=
  StronglySorted Propriedades.texto_menor s.*1 /\
  (forall k, k ∈ s.*1 <-> exists r, r ∈ df /\ chave r = Some k) /\
  (forall k v, (k, v) ∈ s ->
     v = total (valor <$> filter (fun r => chave r = Some k) df)).

(** The month and the day of the month of [civil], as they depend on the
    day's place in its cycle of 400 years (146097 days, from a 1st of
    March). *)
Definition mes_dia_do_ciclo (doe : Z) : Z * Z :=
  let yoe := (doe - doe / 1460 + doe / 36524 - doe / 146096) / 365 in
  let doy := doe - (365 * yoe + yoe / 4 - yoe / 100) in
  let mp := (5 * doy + 2) / 153 in
  let d := doy - (153 * mp + 2) / 5 + 1 in
  let m := if mp <? 10 then mp + 3 else mp - 9 in
  (m, d).

Definition mes_dia_validos (doe : Z) : bool :=
  let '(m, d) := mes_dia_do_ciclo doe in
  (1 <=? m) && (m <=? 12) && (1 <=? d) && (d <=? 31).

(** Tries [f] on 0, 1, ..., [n - 1]: whether all passed, and the number
    reached. *)
Definition todos_ate (f : Z -> bool) (n : positive) : bool * Z :=
  Pos.iter (fun s => (fst s && f (snd s), snd s + 1)) (true, 0) n.

(** The month of a day counted from year 0, on one cycle of 400 years:
    [12 * year + month] without the era. *)
Definition indice_do_ciclo (doe : Z) : Z :=
  let yoe := (doe - doe / 1460 + doe / 36524 - doe / 146096) / 365 in
  let doy := doe - (365 * yoe + yoe / 4 - yoe / 100) in
  let mp := (5 * doy + 2) / 153 in
  let m := if mp <? 10 then mp + 3 else mp - 9 in
  12 * (yoe + (if m <=? 2 then 1 else 0)) + m.

Definition passo_crescente (doe : Z) : bool :=
  indice_do_ciclo doe <=? indice_do_ciclo (doe + 1).

(** The character of a decimal digit. *)
Definition digito (d : Z) : ascii := ascii_of_N (48 + Z.to_N d).

Definition quatro_digitos (y : Z) : string :=
  String (digito (y / 1000)) (String (digito (y / 100 mod 10))
    (String (digito (y / 10 mod 10)) (String (digito (y mod 10)) ""))).

Definition ano_escrito (y : Z) : bool :=
  (y <? 1000) || String.eqb (pretty y) (quatro_digitos y).

End Dominios.

(** * Properties of the generator *)

Section GeradorCorreto.
Import Gerador Propriedades.

(** *** Inversion of the monad *)

Lemma bind_Ok {A B} (m : M A) (f : A -> M B) w b w' :
  (m ≫= f) w = Ok (b, w') ->
  exists a w1, m w = Ok (a, w1) /\ f a w1 = Ok (b, w').
Proof.
  unfold mbind, M_bind. destruct (m w) as [[a w1]|e]; [eauto | discriminate].
Qed.

Lemma ret_Ok {A} (a b : A) w w' :
  (mret a : M A) w = Ok (b, w') -> a = b /\ w = w'.
Proof. unfold mret, M_ret. intros H; injection H; auto. Qed.

Lemma bind_total {A B} (m : M A) (f : A -> M B) w :
  (exists a w1, m w = Ok (a, w1)) ->
  (forall a w1, m w = Ok (a, w1) -> exists b w', f a w1 = Ok (b, w')) ->
  exists b w', (m ≫= f) w = Ok (b, w').
Proof.
  intros (a & w1 & Hm) Hf. unfold mbind, M_bind. rewrite Hm. eauto.
Qed.

(** Splits a successful run of a sequence of binds into its steps. *)
Ltac passos H :=
  repeat match type of H with
  | (_ ≫= _) _ = Ok _ =>
      let a := fresh "a" in let w := fresh "w" in let Ha := fresh "Ha" in
      apply bind_Ok in H; destruct H as (a & w & Ha & H)
  | mret _ _ = Ok _ =>
      apply ret_Ok in H; destruct H as [H ?]
  end.

(** *** The draws *)

Lemma randbelow_total n w : exists k w', randbelow n w = Ok (k, w').
Proof. unfold randbelow, mbind, M_bind, sorteio, mret, M_ret. eauto. Qed.

Lemma randbelow_range n w k w' :
  0 < n -> randbelow n w = Ok (k, w') -> 0 <= k < n.
Proof.
  intros Hn H. unfold randbelow in H. passos H. subst k.
  apply Z.mod_pos_bound; exact Hn.
Qed.

Lemma randint_range a b w k w' :
  a <= b -> randint a b w = Ok (k, w') -> a <= k <= b.
Proof.
  intros Hab H. unfold randint in H. passos H. subst k.
  apply randbelow_range in Ha; lia.
Qed.

Lemma choice_elem {A} (l : list A) w x w' :
  choice l w = Ok (x, w') -> x ∈ l.
Proof.
  destruct l as [|y l]; [discriminate|]. unfold choice. intros H.
  apply bind_Ok in H. destruct H as (k & w1 & _ & H).
  destruct ((y :: l) !! Z.to_nat k) as [z|] eqn:Hz; [|discriminate].
  apply ret_Ok in H. destruct H as [-> _].
  eapply list_elem_of_lookup_2; exact Hz.
Qed.

Lemma choice_total {A} (l : list A) w :
  l <> [] -> exists x w', choice l w = Ok (x, w').
Proof.
  intros Hl. destruct l as [|y l]; [congruence|]. unfold choice.
  destruct (randbelow_total (Z.of_nat (length (y :: l))) w) as (k & w1 & Hk).
  unfold mbind, M_bind. rewrite Hk.
  apply randbelow_range in Hk; [|simpl; lia].
  destruct (lookup_lt_is_Some_2 (y :: l) (Z.to_nat k)) as [z Hz]; [lia|].
  rewrite Hz. unfold mret, M_ret. eauto.
Qed.

(** Runs a sequence of binds whose steps are draws that cannot fail. *)
Ltac roda :=
  repeat (eapply bind_total;
          [ first [ apply choice_total; first [discriminate | assumption]
                  | eexists _, _; reflexivity ]
          | intros ? ? ? ]);
  try (eexists _, _; reflexivity).

(** *** The loops *)

Lemma para_cada_total {A} (f : Z -> M A) ids :
  (forall i w, i ∈ ids -> exists x w', f i w = Ok (x, w')) ->
  forall w, exists xs w', para_cada f ids w = Ok (xs, w').
Proof.
  induction ids as [|i ids IH]; intros Hf w; simpl.
  - unfold mret, M_ret. eauto.
  - destruct (Hf i w) as (x & w1 & Hx); [left|].
    destruct IH with (w := w1) as (xs & w2 & Hxs).
    { intros j w0 Hj. apply Hf. right. exact Hj. }
    unfold mbind, M_bind, mret, M_ret. rewrite Hx, Hxs. eauto.
Qed.

Lemma para_cada_chaves {A} (f : Z -> M A) (chave : A -> Z) ids :
  (forall i w x w', f i w = Ok (x, w') -> chave x = i) ->
  forall w xs w', para_cada f ids w = Ok (xs, w') -> map chave xs = ids.
Proof.
  intros Hf. induction ids as [|i ids IH]; intros w xs w' H; simpl in H.
  - apply ret_Ok in H. destruct H as [<- _]. reflexivity.
  - passos H. subst xs. simpl. f_equal; eauto.
Qed.

Lemma para_cada_Forall {A} (f : Z -> M A) (P : A -> Prop) ids :
  (forall i w x w', f i w = Ok (x, w') -> P x) ->
  forall w xs w', para_cada f ids w = Ok (xs, w') -> Forall P xs.
Proof.
  intros Hf. induction ids as [|i ids IH]; intros w xs w' H; simpl in H.
  - apply ret_Ok in H. destruct H as [<- _]. constructor.
  - passos H. subst xs. constructor; eauto.
Qed.

Lemma range1_elem n i : i ∈ range1 n <-> 1 <= i <= n.
Proof. unfold range1. rewrite elem_of_seqZ. lia. Qed.

Lemma range1_NoDup n : NoDup (range1 n).
Proof. apply NoDup_seqZ. Qed.

Lemma range1_nao_vazio n : 0 < n -> range1 n <> [].
Proof.
  intros Hn He. assert (H : 1 ∈ range1 n) by (apply range1_elem; lia).
  rewrite He in H. inversion H.
Qed.

(** *** The price dictionary *)

Lemma to_dict_origem ps : forall (d : gmap Z float) k v,
  foldl (fun d p => <[Produto.id_produto p := Produto.preco_venda_unitario p]> d)
        d ps !! k = Some v ->
  d !! k = Some v \/
  exists p, p ∈ ps /\ Produto.id_produto p = k /\
            Produto.preco_venda_unitario p = v.
Proof.
  induction ps as [|p ps IH]; intros d k v H; simpl in H; [left; exact H|].
  apply IH in H. destruct H as [H | (q & Hq & Hk & Hv)].
  - destruct (decide (Produto.id_produto p = k)) as [He|Hne].
    + subst k. rewrite lookup_insert_eq in H. injection H as H.
      right. exists p. split; [left | auto].
    + rewrite lookup_insert_ne in H by exact Hne. left. exact H.
  - right. exists q. split; [right; exact Hq | auto].
Qed.

Lemma to_dict_presente ps : forall (d : gmap Z float) k,
  is_Some (d !! k) \/ k ∈ map Produto.id_produto ps ->
  is_Some (foldl (fun d p =>
                    <[Produto.id_produto p := Produto.preco_venda_unitario p]> d)
                 d ps !! k).
Proof.
  induction ps as [|p ps IH]; intros d k H; simpl.
  - destruct H as [H|H]; [exact H | inversion H].
  - apply IH. destruct (decide (Produto.id_produto p = k)) as [He|Hne].
    + left. subst k. rewrite lookup_insert_eq. eauto.
    + rewrite lookup_insert_ne by exact Hne.
      destruct H as [H|H]; [left; exact H|].
      simpl in H. apply elem_of_cons in H. destruct H as [H|H]; [congruence|].
      right. exact H.
Qed.

(** *** The rows *)

Lemma gerar_fornecedor_id i w x w' :
  gerar_fornecedor i w = Ok (x, w') -> Fornecedor.id_fornecedor x = i.
Proof. intros H. unfold gerar_fornecedor in H. passos H. subst x. reflexivity. Qed.

Lemma gerar_fornecedor_total i w : exists x w', gerar_fornecedor i w = Ok (x, w').
Proof. unfold gerar_fornecedor. eexists _, _. reflexivity. Qed.

Lemma gerar_cliente_id i w x w' :
  gerar_cliente i w = Ok (x, w') -> Cliente.id_cliente x = i.
Proof. intros H. unfold gerar_cliente in H. passos H. subst x. reflexivity. Qed.

Lemma gerar_cliente_total i w : exists x w', gerar_cliente i w = Ok (x, w').
Proof. unfold gerar_cliente. roda. Qed.

Lemma gerar_vendedor_id i w x w' :
  gerar_vendedor i w = Ok (x, w') -> Vendedor.id_vendedor x = i.
Proof. intros H. unfold gerar_vendedor in H. passos H. subst x. reflexivity. Qed.

Lemma gerar_vendedor_total i w : exists x w', gerar_vendedor i w = Ok (x, w').
Proof. unfold gerar_vendedor. roda. Qed.

Lemma gerar_produto_inv fornecedor_ids i w x w' :
  gerar_produto fornecedor_ids i w = Ok (x, w') ->
  Produto.id_produto x = i /\ Produto.id_fornecedor x ∈ fornecedor_ids.
Proof.
  intros H. unfold gerar_produto in H. passos H. subst x. simpl.
  split; [reflexivity|]. eapply choice_elem; eassumption.
Qed.

Lemma gerar_produto_total fornecedor_ids i w :
  fornecedor_ids <> [] ->
  exists x w', gerar_produto fornecedor_ids i w = Ok (x, w').
Proof. intros Hf. unfold gerar_produto. roda. Qed.

Lemma gerar_venda_inv produtos cliente_ids vendedor_ids i w v w' :
  gerar_venda (map Produto.id_produto produtos) cliente_ids vendedor_ids
              (to_dict produtos) i w = Ok (v, w') ->
  Venda.id_venda v = i /\ venda_gerada produtos cliente_ids vendedor_ids v.
Proof.
  intros H. unfold gerar_venda in H.
  apply bind_Ok in H. destruct H as (id_prod & w1 & Hprod & H).
  apply bind_Ok in H. destruct H as (q & w2 & Hq & H).
  apply bind_Ok in H. destruct H as (preco & w3 & Hpreco & H).
  passos H. subst v. split; [reflexivity|]. split; simpl.
  - eapply choice_elem; eassumption.
  - eapply choice_elem; eassumption.
  - eapply randint_range; [|eassumption]. lia.
  - unfold item in Hpreco.
    destruct (to_dict produtos !! id_prod) as [pr|] eqn:Hd; [|discriminate].
    apply ret_Ok in Hpreco. destruct Hpreco as [-> _].
    apply to_dict_origem in Hd. destruct Hd as [Hd | (p & Hp & Hk & Hv)].
    + rewrite lookup_empty in Hd. discriminate.
    + exists p. subst. auto.
Qed.

Lemma gerar_venda_total produtos cliente_ids vendedor_ids i w :
  produtos <> [] -> cliente_ids <> [] -> vendedor_ids <> [] ->
  exists v w', gerar_venda (map Produto.id_produto produtos) cliente_ids
                           vendedor_ids (to_dict produtos) i w = Ok (v, w').
Proof.
  intros Hp Hc Hv. unfold gerar_venda.
  assert (Hids : map Produto.id_produto produtos <> [])
    by (destruct produtos; [congruence | discriminate]).
  eapply bind_total; [apply choice_total; exact Hids | intros id_prod w1 Hid].
  apply choice_elem in Hid.
  eapply bind_total; [eexists _, _; reflexivity | intros q w2 _].
  eapply bind_total.
  { unfold item.
    destruct (to_dict_presente produtos ∅ id_prod) as [pr Hpr]; [right; exact Hid|].
    unfold to_dict. rewrite Hpr. eexists _, _. reflexivity. }
  intros preco w3 _. roda.
Qed.


(** *** The whole script *)

Lemma chaves_nao_vazias {A} (chave : A -> Z) (l : list A) n :
  chave <$> l = range1 n -> 0 < n -> l <> [].
Proof.
  intros He Hn ->. symmetry in He. revert He. apply range1_nao_vazio. exact Hn.
Qed.

Lemma gerar_espec w : exists t w', gerar w = Ok (t, w') /\ integra t.
Proof.
  destruct (para_cada_total gerar_fornecedor (range1 NUM_FORNECEDORES))
    with (w := w) as (fs & w1 & Hfs).
  { intros i w0 _. apply gerar_fornecedor_total. }
  pose proof (para_cada_chaves _ Fornecedor.id_fornecedor _
                gerar_fornecedor_id _ _ _ Hfs) as Kfs.
  assert (Nfs : map Fornecedor.id_fornecedor fs <> []).
  { rewrite Kfs. apply range1_nao_vazio. reflexivity. }
  destruct (para_cada_total (gerar_produto (map Fornecedor.id_fornecedor fs))
              (range1 NUM_PRODUTOS)) with (w := w1) as (ps & w2 & Hps).
  { intros i w0 _. apply gerar_produto_total. exact Nfs. }
  pose proof (para_cada_chaves _ Produto.id_produto _
    (fun i w x w' H => proj1 (gerar_produto_inv _ i w x w' H)) _ _ _ Hps) as Kps.
  pose proof (para_cada_Forall _
    (fun p => Produto.id_fornecedor p ∈ map Fornecedor.id_fornecedor fs) _
    (fun i w x w' H => proj2 (gerar_produto_inv _ i w x w' H)) _ _ _ Hps) as Fps.
  destruct (para_cada_total gerar_cliente (range1 NUM_CLIENTES))
    with (w := w2) as (cs & w3 & Hcs).
  { intros i w0 _. apply gerar_cliente_total. }
  pose proof (para_cada_chaves _ Cliente.id_cliente _
                gerar_cliente_id _ _ _ Hcs) as Kcs.
  destruct (para_cada_total gerar_vendedor (range1 NUM_VENDEDORES))
    with (w := w3) as (vs & w4 & Hvs).
  { intros i w0 _. apply gerar_vendedor_total. }
  pose proof (para_cada_chaves _ Vendedor.id_vendedor _
                gerar_vendedor_id _ _ _ Hvs) as Kvs.
  destruct (para_cada_total
              (gerar_venda (map Produto.id_produto ps) (map Cliente.id_cliente cs)
                           (map Vendedor.id_vendedor vs) (to_dict ps))
              (range1 NUM_VENDAS)) with (w := w4) as (ss & w5 & Hss).
  { intros i w0 _. apply gerar_venda_total.
    - eapply chaves_nao_vazias; [exact Kps | reflexivity].
    - rewrite Kcs. apply range1_nao_vazio. reflexivity.
    - rewrite Kvs. apply range1_nao_vazio. reflexivity. }
  pose proof (para_cada_chaves _ Venda.id_venda _
    (fun i w x w' H => proj1 (gerar_venda_inv _ _ _ i w x w' H)) _ _ _ Hss) as Kss.
  pose proof (para_cada_Forall _ _ _
    (fun i w x w' H => proj2 (gerar_venda_inv _ _ _ i w x w' H)) _ _ _ Hss) as Fss.
  eexists _, w5. split.
  - unfold gerar, mbind, M_bind. rewrite Hfs. cbv zeta. rewrite Hps, Hcs, Hvs.
    rewrite Hss. reflexivity.
  - split; simpl; assumption.
Qed.

(** One run, on the example source: a thousand sales, the first of one
    unit of product 22, whose price is 365.15. *)
Example gerar_fonte_exemplo :
  match gerar fonte_exemplo with
  | Ok (t, _) =>
      Some (length (vendas_df t),
            (fun v : Venda.t =>
               (Venda.id_venda v, Venda.id_produto v, Venda.quantidade_vendida v,
                Venda.valor_total_venda v)) <$> take 1 (vendas_df t),
            Produto.preco_venda_unitario <$>
              filter (fun p => Produto.id_produto p = 22) (produtos_df t))
  | Falha _ => None
  end = Some (1000%nat, [(1, 22, 1, 365.15%float)], [365.15%float]).
Proof. vm_compute. reflexivity. Qed.

(** Rows of distinct keys: the key decides the row. *)
Lemma chave_decide_linha {A} (chave : A -> Z) (l : list A) x y :
  NoDup (chave <$> l) -> x ∈ l -> y ∈ l -> chave x = chave y -> x = y.
Proof.
  induction l as [|z l IH]; intros Hnd Hx Hy He; [inversion Hx|].
  simpl in Hnd. apply NoDup_cons in Hnd. destruct Hnd as [Hz Hnd].
  apply elem_of_cons in Hx. apply elem_of_cons in Hy.
  destruct Hx as [->|Hx], Hy as [->|Hy].
  - reflexivity.
  - exfalso. apply Hz. rewrite He. apply list_elem_of_fmap_2. exact Hy.
  - exfalso. apply Hz. rewrite <- He. apply list_elem_of_fmap_2. exact Hx.
  - apply IH; assumption.
Qed.

(** C4.  In every run of the generator, whatever the random draws, each
    sale row refers to exactly one product row, and its [valor_total_venda]
    is [round(preco_venda_unitario * quantidade_vendida, 2)] for that
    product's price and the sale's quantity. *)
Theorem valor_total_gerado (w : Fonte) :
  exists t w', gerar w = Ok (t, w') /\
    forall v, v ∈ vendas_df t ->
      exists p, p ∈ produtos_df t /\
        Produto.id_produto p = Venda.id_produto v /\
        (forall p', p' ∈ produtos_df t ->
                    Produto.id_produto p' = Venda.id_produto v -> p' = p) /\
        Venda.valor_total_venda v =
          round2 (Produto.preco_venda_unitario p *
                  float_of_Z (Venda.quantidade_vendida v))%float.
Proof.
  destruct (gerar_espec w) as (t & w' & Hrun & Hint). exists t, w'.
  split; [exact Hrun|]. intros v Hv.
  pose proof (int_linhas_vendas t Hint) as Hvs. rewrite Forall_forall in Hvs.
  destruct (vg_produto _ _ _ _ (Hvs v Hv)) as (p & Hp & Hid & Hval).
  exists p. repeat split; try assumption.
  intros p' Hp' Hid'. apply (chave_decide_linha Produto.id_produto (produtos_df t)).
  - rewrite (int_produtos t Hint). apply range1_NoDup.
  - exact Hp'.
  - exact Hp.
  - congruence.
Qed.

(** C5.  In every run of the generator, each sale's [id_produto],
    [id_cliente] and [id_vendedor] and each product's [id_fornecedor] is the
    key of a row of the table it refers to. *)
Theorem chaves_estrangeiras_geradas (w : Fonte) :
  exists t w', gerar w = Ok (t, w') /\
    (forall v, v ∈ vendas_df t ->
       Venda.id_produto v ∈ (Produto.id_produto <$> produtos_df t) /\
       Venda.id_cliente v ∈ (Cliente.id_cliente <$> clientes_df t) /\
       Venda.id_vendedor v ∈ (Vendedor.id_vendedor <$> vendedores_df t)) /\
    (forall p, p ∈ produtos_df t ->
       Produto.id_fornecedor p ∈ (Fornecedor.id_fornecedor <$> fornecedores_df t)).
Proof.
  destruct (gerar_espec w) as (t & w' & Hrun & Hint). exists t, w'.
  split; [exact Hrun|]. split.
  - intros v Hv.
    pose proof (int_linhas_vendas t Hint) as Hvs. rewrite Forall_forall in Hvs.
    destruct (Hvs v Hv) as [Hc Hs _ (p & Hp & Hid & _)].
    repeat split; try assumption.
    rewrite <- Hid. apply list_elem_of_fmap_2. exact Hp.
  - pose proof (int_fk_produtos t Hint) as Hps. rewrite Forall_forall in Hps.
    exact Hps.
Qed.

Lemma range1_de_1_a n coluna : 0 < n -> coluna = range1 n -> de_1_a n coluna.
Proof.
  intros Hn ->. split; [reflexivity|]. split; [apply range1_NoDup|].
  split; [apply range1_nao_vazio; exact Hn | apply range1_elem].
Qed.

(** C9.  In every run of the generator, the key column of each of the five
    tables is the list 1, 2, ..., N for the table's configured count N; so
    the keys of a table are distinct and no table is empty. *)
Theorem chaves_primarias_geradas (w : Fonte) :
  exists t w', gerar w = Ok (t, w') /\
    de_1_a NUM_FORNECEDORES (Fornecedor.id_fornecedor <$> fornecedores_df t) /\
    de_1_a NUM_PRODUTOS (Produto.id_produto <$> produtos_df t) /\
    de_1_a NUM_CLIENTES (Cliente.id_cliente <$> clientes_df t) /\
    de_1_a NUM_VENDEDORES (Vendedor.id_vendedor <$> vendedores_df t) /\
    de_1_a NUM_VENDAS (Venda.id_venda <$> vendas_df t).
Proof.
  destruct (gerar_espec w) as (t & w' & Hrun & Hint). exists t, w'.
  split; [exact Hrun|]. destruct Hint as [H1 H2 H3 H4 H5 _ _].
  repeat match goal with |- _ /\ _ => split end;
    apply range1_de_1_a; solve [reflexivity | assumption].
Qed.

(** ** Further properties of the generator *)

Import Dominios Configuravel.

(** *** The clock *)

Lemma preserva_ret {A} (a : A) : preserva (mret a).
Proof. intros w b w' H. apply ret_Ok in H. destruct H as [_ <-]. reflexivity. Qed.

Lemma preserva_bind {A B} (m : M A) (f : A -> M B) :
  preserva m -> (forall a, preserva (f a)) -> preserva (m ≫= f).
Proof.
  intros Hm Hf w b w' H. apply bind_Ok in H. destruct H as (a & w1 & H1 & H2).
  rewrite (Hf a _ _ _ H2). eapply Hm. exact H1.
Qed.

Lemma preserva_levanta {A} e : preserva (levanta e : M A).
Proof. intros w a w' H. discriminate. Qed.

Lemma preserva_sorteio : preserva sorteio.
Proof. intros w a w' H. injection H as _ <-. reflexivity. Qed.

Lemma preserva_texto : preserva texto.
Proof. intros w a w' H. injection H as _ <-. reflexivity. Qed.

Lemma preserva_relogio : preserva relogio.
Proof. intros w a w' H. injection H as _ <-. reflexivity. Qed.

Lemma preserva_choice {A} (l : list A) : preserva (choice l).
Proof.
  destruct l as [|x l]; [apply preserva_levanta|]. unfold choice.
  apply preserva_bind.
  - unfold randbelow. apply preserva_bind; [apply preserva_sorteio|].
    intros. apply preserva_ret.
  - intros k. destruct ((x :: l) !! Z.to_nat k);
      [apply preserva_ret | apply preserva_levanta].
Qed.

Lemma preserva_item d k : preserva (item d k).
Proof.
  unfold item. destruct (d !! k); [apply preserva_ret | apply preserva_levanta].
Qed.

(** Proves that a sequence of binds over the draws leaves the clock. *)
Ltac relogio_parado :=
  cbv zeta;
  repeat first
    [ apply preserva_ret | apply preserva_sorteio | apply preserva_texto
    | apply preserva_relogio | apply preserva_choice | apply preserva_item
    | apply preserva_bind; [|intros ?; cbv zeta] ].

Lemma preserva_randbelow n : preserva (randbelow n).
Proof. unfold randbelow. relogio_parado. Qed.

Lemma preserva_uniform a b : preserva (uniform a b).
Proof. unfold uniform, random, randbelow. relogio_parado. Qed.








(** *** The runs of the script, loop by loop *)

Lemma gerar_inv w t w' :
  gerar w = Ok (t, w') ->
  exists w1 w2 w3 w4,
    para_cada gerar_fornecedor (range1 NUM_FORNECEDORES) w
      = Ok (fornecedores_df t, w1) /\
    para_cada (gerar_produto (map Fornecedor.id_fornecedor (fornecedores_df t)))
              (range1 NUM_PRODUTOS) w1 = Ok (produtos_df t, w2) /\
    para_cada gerar_cliente (range1 NUM_CLIENTES) w2 = Ok (clientes_df t, w3) /\
    para_cada gerar_vendedor (range1 NUM_VENDEDORES) w3
      = Ok (vendedores_df t, w4) /\
    para_cada (gerar_venda (map Produto.id_produto (produtos_df t))
                           (map Cliente.id_cliente (clientes_df t))
                           (map Vendedor.id_vendedor (vendedores_df t))
                           (to_dict (produtos_df t)))
              (range1 NUM_VENDAS) w4 = Ok (vendas_df t, w').
Proof.
  intros H.
  destruct (para_cada_total gerar_fornecedor (range1 NUM_FORNECEDORES))
    with (w := w) as (fs & w1 & Hfs).
  { intros i w0 _. apply gerar_fornecedor_total. }
  pose proof (para_cada_chaves _ Fornecedor.id_fornecedor _
                gerar_fornecedor_id _ _ _ Hfs) as Kfs.
  assert (Nfs : map Fornecedor.id_fornecedor fs <> []).
  { rewrite Kfs. apply range1_nao_vazio. reflexivity. }
  destruct (para_cada_total (gerar_produto (map Fornecedor.id_fornecedor fs))
              (range1 NUM_PRODUTOS)) with (w := w1) as (ps & w2 & Hps).
  { intros i w0 _. apply gerar_produto_total. exact Nfs. }
  pose proof (para_cada_chaves _ Produto.id_produto _
    (fun i w x w' H => proj1 (gerar_produto_inv _ i w x w' H)) _ _ _ Hps) as Kps.
  destruct (para_cada_total gerar_cliente (range1 NUM_CLIENTES))
    with (w := w2) as (cs & w3 & Hcs).
  { intros i w0 _. apply gerar_cliente_total. }
  pose proof (para_cada_chaves _ Cliente.id_cliente _
                gerar_cliente_id _ _ _ Hcs) as Kcs.
  destruct (para_cada_total gerar_vendedor (range1 NUM_VENDEDORES))
    with (w := w3) as (vs & w4 & Hvs).
  { intros i w0 _. apply gerar_vendedor_total. }
  pose proof (para_cada_chaves _ Vendedor.id_vendedor _
                gerar_vendedor_id _ _ _ Hvs) as Kvs.
  destruct (para_cada_total
              (gerar_venda (map Produto.id_produto ps) (map Cliente.id_cliente cs)
                           (map Vendedor.id_vendedor vs) (to_dict ps))
              (range1 NUM_VENDAS)) with (w := w4) as (ss & w5 & Hss).
  { intros i w0 _. apply gerar_venda_total.
    - eapply chaves_nao_vazias; [exact Kps | reflexivity].
    - rewrite Kcs. apply range1_nao_vazio. reflexivity.
    - rewrite Kvs. apply range1_nao_vazio. reflexivity. }
  assert (Hrun : gerar w = Ok ({| fornecedores_df := fs; produtos_df := ps;
                                  clientes_df := cs; vendedores_df := vs;
                                  vendas_df := ss |}, w5)).
  { unfold gerar, mbind, M_bind. rewrite Hfs. cbv zeta. rewrite Hps, Hcs, Hvs.
    rewrite Hss. reflexivity. }
  rewrite Hrun in H. injection H as <- <-.
  exists w1, w2, w3, w4. repeat split; assumption.
Qed.

(** *** The random fields *)







(** *** The price dictionary, again *)

Lemma to_dict_ausente ps : forall (d : gmap Z float) k,
  k ∉ map Produto.id_produto ps ->
  foldl (fun d p => <[Produto.id_produto p := Produto.preco_venda_unitario p]> d)
        d ps !! k = d !! k.
Proof.
  induction ps as [|p ps IH]; intros d k Hk; simpl; [reflexivity|].
  simpl in Hk. apply not_elem_of_cons in Hk. destruct Hk as [Hne Hk].
  rewrite IH by exact Hk. apply lookup_insert_ne. congruence.
Qed.

(** X3.  Looking a product id up in the price dictionary raises [KeyError]
    when no product row has that id, and otherwise gives the price of the
    last product row with that id, without touching the random source. *)
Theorem precos_produtos_consulta (ps : list Produto.t) (k : Z) (w : Fonte) :
  match item (to_dict ps) k w with
  | Ok (preco, w') =>
      w' = w /\
      exists antes p depois,
        ps = antes ++ p :: depois /\ Produto.id_produto p = k /\
        (k ∉ map Produto.id_produto depois) /\
        preco = Produto.preco_venda_unitario p
  | Falha e => e = KeyError /\ k ∉ map Produto.id_produto ps
  end.
Proof.
  unfold item, to_dict.
  assert (Hgen : forall (l : list Produto.t) (d : gmap Z float),
    match foldl (fun d p =>
                   <[Produto.id_produto p := Produto.preco_venda_unitario p]> d)
                d l !! k with
    | Some preco =>
        (d !! k = Some preco /\ k ∉ map Produto.id_produto l) \/
        exists antes p depois,
          l = antes ++ p :: depois /\ Produto.id_produto p = k /\
          (k ∉ map Produto.id_produto depois) /\
          preco = Produto.preco_venda_unitario p
    | None => d !! k = None /\ k ∉ map Produto.id_produto l
    end).
  { induction l as [|p l IH] using rev_ind; intros d.
    - simpl. destruct (d !! k); [left|]; split; auto; apply not_elem_of_nil.
    - rewrite foldl_app. simpl.
      destruct (decide (Produto.id_produto p = k)) as [He|Hne].
      + subst k. rewrite lookup_insert_eq. right.
        exists l, p, []. repeat split; auto. apply not_elem_of_nil.
      + rewrite lookup_insert_ne by exact Hne. specialize (IH d).
        assert (Hsnoc : forall q, q ∉ map Produto.id_produto l -> q = k ->
                  k ∉ map Produto.id_produto (l ++ [p])).
        { intros q Hq ->. rewrite map_app. simpl. intros Hin.
          apply elem_of_app in Hin. destruct Hin as [Hin|Hin]; [auto|].
          apply list_elem_of_singleton in Hin. congruence. }
        destruct (foldl _ d l !! k) as [preco|].
        * destruct IH as [[Hd Hk] | (antes & q & depois & -> & Hq & Hk & Hp)].
          -- left. split; [exact Hd|]. eapply Hsnoc; eauto.
          -- right. exists antes, q, (depois ++ [p]).
             rewrite <- app_assoc. simpl. repeat split; auto.
             rewrite map_app. simpl. intros Hin.
             apply elem_of_app in Hin. destruct Hin as [Hin|Hin]; [auto|].
             apply list_elem_of_singleton in Hin. congruence.
        * destruct IH as [Hd Hk]. split; [exact Hd|]. eapply Hsnoc; eauto. }
  specialize (Hgen ps ∅).
  destruct (foldl _ ∅ ps !! k) as [preco|].
  - split; [reflexivity|].
    destruct Hgen as [[Hd _]|H]; [rewrite lookup_empty in Hd; discriminate|].
    exact H.
  - split; [reflexivity | tauto].
Qed.

(** With distinct ids, the dictionary gives each product its own price. *)
Example precos_produtos_exemplo :
  (fun k => to_dict [Exemplos.caneta; Exemplos.lapis; Exemplos.caneta_azul] !! k)
    <$> [1; 2; 3] = [Some 12; Some 20; None]%float.
Proof. vm_compute. reflexivity. Qed.

(** *** Other counts *)


Lemma coluna_ids_Ok {A} (chave : A -> Z) (l : list A) w :
  l <> [] -> coluna_ids chave l w = Ok (map chave l, w).
Proof. destruct l; [congruence | reflexivity]. Qed.


(** With the counts of the script, the parametrised generator is the
    script. *)
Lemma gerar_com_padrao w : gerar_com config_padrao w = gerar w.
Proof.
  destruct (gerar_espec w) as (t & w' & Hrun & Hint). rewrite Hrun.
  destruct (gerar_inv _ _ _ Hrun) as (w1 & w2 & w3 & w4 & H1 & H2 & H3 & H4 & H5).
  destruct Hint as [K1 K2 K3 K4 _ _ _].
  unfold gerar_com, mbind, M_bind.
  cbn [num_fornecedores num_produtos num_clientes num_vendedores num_vendas
       config_padrao].
  rewrite H1.
  rewrite coluna_ids_Ok by (eapply chaves_nao_vazias; [exact K1 | reflexivity]).
  rewrite H2, H3, H4.
  rewrite coluna_ids_Ok by (eapply chaves_nao_vazias; [exact K2 | reflexivity]).
  rewrite coluna_ids_Ok by (eapply chaves_nao_vazias; [exact K3 | reflexivity]).
  rewrite coluna_ids_Ok by (eapply chaves_nao_vazias; [exact K4 | reflexivity]).
  cbv zeta. rewrite H5. destruct t. reflexivity.
Qed.


(** No suppliers: the script stops at the suppliers' key column. *)
Example gerar_sem_fornecedores :
  gerar_com {| num_fornecedores := 0; num_produtos := 2; num_clientes := 2;
               num_vendedores := 2; num_vendas := 3 |} fonte_exemplo
  = Falha KeyError.
Proof. vm_compute. reflexivity. Qed.

End GeradorCorreto.

(** * Properties of the dashboard *)

Section PainelCorreto.
Import Painel Propriedades.

(** *** Loading and joining *)

(** [load_data] succeeds exactly when the four files it reads exist;
    [fornecedores.csv] plays no part. *)
Lemma load_data_Some d ps cs ss vs :
  load_data d = Some (ps, cs, ss, vs) <->
  produtos_csv d = Some ps /\ clientes_csv d = Some cs /\
  vendedores_csv d = Some ss /\ vendas_csv d = Some vs.
Proof.
  unfold load_data, read_csv, mbind, Res_bind, mret, Res_ret.
  destruct (produtos_csv d), (clientes_csv d), (vendedores_csv d), (vendas_csv d);
    split; intros H; try discriminate; try (destruct H as (?&?&?&?); discriminate).
  - injection H as -> -> -> ->. auto.
  - destruct H as (H1 & H2 & H3 & H4).
    injection H1 as ->. injection H2 as ->. injection H3 as ->. injection H4 as ->.
    reflexivity.
Qed.

Section Merge.
Context {L R : Type} (chave_esq : L -> Z) (chave_dir : R -> Z).

Lemma merge_left_cons l esq dir :
  merge_left chave_esq chave_dir (l :: esq) dir =
  match filter (fun r => chave_dir r = chave_esq l) dir with
  | [] => [(l, None)]
  | iguais => (fun r => (l, Some r)) <$> iguais
  end ++ merge_left chave_esq chave_dir esq dir.
Proof. reflexivity. Qed.

Lemma merge_left_elem esq dir l o :
  (l, o) ∈ merge_left chave_esq chave_dir esq dir ->
  l ∈ esq /\ casado chave_dir dir (chave_esq l) o.
Proof.
  induction esq as [|l0 esq IH]; [intros H; inversion H|].
  rewrite merge_left_cons, elem_of_app. intros [H|H].
  - destruct (filter _ dir) as [|r rs] eqn:Hf.
    + apply list_elem_of_singleton in H. injection H as -> ->.
      split; [left|]. simpl. intros Hk.
      apply list_elem_of_fmap in Hk. destruct Hk as (r & Hr & Hin).
      assert (Hr' : r ∈ filter (fun r => chave_dir r = chave_esq l0) dir)
        by (apply list_elem_of_filter; auto).
      rewrite Hf in Hr'. inversion Hr'.
    + apply list_elem_of_fmap in H. destruct H as (r' & Heq & Hin).
      injection Heq as -> ->. split; [left|]. simpl.
      rewrite <- Hf in Hin. apply list_elem_of_filter in Hin.
      destruct Hin; auto.
  - destruct (IH H) as [Hl Hc]. split; [right; exact Hl | exact Hc].
Qed.

Lemma merge_left_sublist esq dir :
  esq `sublist_of` (merge_left chave_esq chave_dir esq dir).*1.
Proof.
  induction esq as [|l esq IH]; [apply sublist_nil_l|].
  rewrite merge_left_cons, fmap_app.
  destruct (filter _ dir) as [|r rs]; simpl.
  - apply sublist_skip. exact IH.
  - apply sublist_skip. apply sublist_inserts_l. exact IH.
Qed.

Lemma filtro_chave_unica (dir : list R) k :
  NoDup (chave_dir <$> dir) ->
  (length (filter (fun r => chave_dir r = k) dir) <= 1)%nat.
Proof.
  induction dir as [|r dir IH]; intros Hnd; [simpl; lia|].
  simpl in Hnd. apply NoDup_cons in Hnd. destruct Hnd as [Hr Hnd].
  rewrite filter_cons. destruct (decide (chave_dir r = k)) as [He|Hne].
  - assert (Hnil : filter (fun r => chave_dir r = k) dir = []).
    { destruct (filter _ dir) as [|r' rs] eqn:Hf; [reflexivity|]. exfalso.
      assert (Hr' : r' ∈ filter (fun r => chave_dir r = k) dir)
        by (rewrite Hf; left).
      apply list_elem_of_filter in Hr'. destruct Hr' as [Hk Hin].
      apply Hr. rewrite He, <- Hk. apply list_elem_of_fmap_2. exact Hin. }
    rewrite Hnil. simpl. lia.
  - apply IH. exact Hnd.
Qed.

Lemma merge_left_unico esq dir :
  NoDup (chave_dir <$> dir) ->
  (merge_left chave_esq chave_dir esq dir).*1 = esq.
Proof.
  intros Hnd. induction esq as [|l esq IH]; [reflexivity|].
  rewrite merge_left_cons, fmap_app, IH.
  pose proof (filtro_chave_unica dir (chave_esq l) Hnd) as Hlen.
  destruct (filter _ dir) as [|r [|r' rs]]; simpl in *; [reflexivity.. | lia].
Qed.

End Merge.

(** *** The joined table *)

Lemma calcular_colunas j :
  venda (calcular j) = j.1.1.1 /\ produto (calcular j) = j.1.1.2 /\
  cliente (calcular j) = j.1.2 /\ vendedor (calcular j) = j.2.
Proof. destruct j as [[[v p] c] s]. auto. Qed.

Lemma transformar_vendas ps cs ss vs :
  venda <$> transformar ps cs ss vs =
  ((merge_left (fun j => Venda.id_vendedor j.1.1) Vendedor.id_vendedor
      (merge_left (fun j => Venda.id_cliente j.1) Cliente.id_cliente
         (merge_left Venda.id_produto Produto.id_produto vs ps) cs) ss).*1).*1.*1.
Proof.
  unfold transformar. rewrite <- !list_fmap_compose. apply list_fmap_ext.
  intros _ j _. simpl. apply calcular_colunas.
Qed.

Lemma transformar_linha ps cs ss vs r :
  r ∈ transformar ps cs ss vs ->
  venda r ∈ vs /\
  casado Produto.id_produto ps (Venda.id_produto (venda r)) (produto r) /\
  casado Cliente.id_cliente cs (Venda.id_cliente (venda r)) (cliente r) /\
  casado Vendedor.id_vendedor ss (Venda.id_vendedor (venda r)) (vendedor r).
Proof.
  unfold transformar. intros H. apply list_elem_of_fmap in H.
  destruct H as ([[[v p] c] s] & -> & H). simpl.
  apply merge_left_elem in H. destruct H as [H Hs].
  apply merge_left_elem in H. destruct H as [H Hc].
  apply merge_left_elem in H. destruct H as [H Hp]. auto.
Qed.

(** C1, as amended.  The load step reads the four tables products,
    customers, sellers and sales: whenever those four files exist the joined
    table is built, whether or not a suppliers file exists.  Sale is
    left-joined with Product, Customer and Seller on their keys: every sale
    row is kept, in order, at least once; each joined row carries a sale
    together with, for each parent table, either a parent row of the sale's
    key or null attributes when no parent row has that key; and when the
    keys of the three parent tables are distinct, the joined table has
    exactly one row per sale row. *)
Theorem juncao_a_esquerda d ps cs ss vs :
  produtos_csv d = Some ps -> clientes_csv d = Some cs ->
  vendedores_csv d = Some ss -> vendas_csv d = Some vs ->
  exists df, df_merged_de d = Some df /\
    vs `sublist_of` (venda <$> df) /\
    (NoDup (Produto.id_produto <$> ps) -> NoDup (Cliente.id_cliente <$> cs) ->
     NoDup (Vendedor.id_vendedor <$> ss) -> venda <$> df = vs) /\
    forall r, r ∈ df ->
      venda r ∈ vs /\
      casado Produto.id_produto ps (Venda.id_produto (venda r)) (produto r) /\
      casado Cliente.id_cliente cs (Venda.id_cliente (venda r)) (cliente r) /\
      casado Vendedor.id_vendedor ss (Venda.id_vendedor (venda r)) (vendedor r).
Proof.
  intros Hp Hc Hs Hv. exists (transformar ps cs ss vs).
  assert (Hload : load_data d = Some (ps, cs, ss, vs))
    by (apply load_data_Some; auto).
  split; [unfold df_merged_de; rewrite Hload; reflexivity|].
  split; [|split].
  - rewrite transformar_vendas.
    set (df1 := merge_left Venda.id_produto Produto.id_produto vs ps).
    set (df2 := merge_left _ Cliente.id_cliente df1 cs).
    transitivity (df1.*1); [apply merge_left_sublist|]. apply fmap_sublist.
    transitivity (df2.*1); [apply merge_left_sublist|]. apply fmap_sublist.
    apply merge_left_sublist.
  - intros Np Nc Ns. rewrite transformar_vendas.
    rewrite !merge_left_unico by assumption. reflexivity.
  - apply transformar_linha.
Qed.

Lemma juncao_a_esquerda_witness :
  exists df, df_merged_de Exemplos.disco_orfa = Some df /\
    [Exemplos.venda_lapis; Exemplos.venda_caneta; Exemplos.venda_orfa]
      `sublist_of` (venda <$> df) /\
    (NoDup (Produto.id_produto <$> [Exemplos.caneta; Exemplos.lapis; Exemplos.bola]) ->
     NoDup (Cliente.id_cliente <$> [Exemplos.ana]) ->
     NoDup (Vendedor.id_vendedor <$> [Exemplos.zeca; Exemplos.beto]) ->
     venda <$> df =
       [Exemplos.venda_lapis; Exemplos.venda_caneta; Exemplos.venda_orfa]) /\
    forall r, r ∈ df ->
      venda r ∈ [Exemplos.venda_lapis; Exemplos.venda_caneta; Exemplos.venda_orfa] /\
      casado Produto.id_produto [Exemplos.caneta; Exemplos.lapis; Exemplos.bola]
             (Venda.id_produto (venda r)) (produto r) /\
      casado Cliente.id_cliente [Exemplos.ana]
             (Venda.id_cliente (venda r)) (cliente r) /\
      casado Vendedor.id_vendedor [Exemplos.zeca; Exemplos.beto]
             (Venda.id_vendedor (venda r)) (vendedor r).
Proof.
  apply (juncao_a_esquerda Exemplos.disco_orfa); reflexivity.
Defined.

(** The sale without a product row stays in the joined table, with null
    product columns and a null profit. *)
Example venda_orfa_mantida :
  (fun r => (id_venda r, nome_produto r, nome_cliente r, is_nan (lucro_venda r)))
    <$> Exemplos.df_orfa =
  [ (1, Some "Lapis", Some "Ana", false);
    (2, Some "Caneta", Some "Ana", false);
    (3, None, Some "Ana", true) ]%string.
Proof. vm_compute. reflexivity. Qed.

(** C1, as stated, fails.  With no suppliers file on disk the load step
    still succeeds, so it does not load five tables; and with two product
    rows of the same key, one sale row gives two joined rows. *)
Lemma juncao_duplica_venda :
  fornecedores_csv Exemplos.disco_chave_repetida = None /\
  vendas_csv Exemplos.disco_chave_repetida = Some [Exemplos.venda_caneta] /\
  option_map (fun df : list Linha => nome_produto <$> df)
             (df_merged_de Exemplos.disco_chave_repetida) =
    Some [Some "Caneta"; Some "Caneta Azul"]%string /\
  ~ (exists df, df_merged_de Exemplos.disco_chave_repetida = Some df /\
                length df = length [Exemplos.venda_caneta]).
Proof.
  repeat split; try reflexivity.
  intros (df & Hdf & Hlen). vm_compute in Hdf. injection Hdf as <-. discriminate.
Qed.

(** *** The calculated columns *)

(** The margin column is the profit divided by the sale total, times 100,
    with NaN replaced by 0. *)
Lemma margem_definicao ps cs ss vs r :
  r ∈ transformar ps cs ss vs ->
  margem_lucro_percentual r =
    fillna0 (lucro_venda r / valor_total_venda r * 100)%float.
Proof.
  unfold transformar. intros H. apply list_elem_of_fmap in H.
  destruct H as ([[[v p] c] s] & -> & _). reflexivity.
Qed.

(** The example of the specification: two units of the product priced
    20.00 and costing 10.00 give a total of 40.00, a profit of 20.00 and a
    margin of 50%. *)
Example margem_do_exemplo :
  (fun r => (valor_total_venda r, lucro_venda r, margem_lucro_percentual r))
    <$> take 1 Exemplos.df_simples = [(40, 20, 50)%float].
Proof. vm_compute. reflexivity. Qed.

(** C2: the code misses the claim.  A sale with a total of zero and a
    non-zero profit gets an infinite margin: [fillna(0)] replaces the NaN of
    0/0 only, not the infinity of 20/0. *)
Theorem margem_infinita :
  (fun r => (valor_total_venda r, lucro_venda r, margem_lucro_percentual r))
    <$> Exemplos.df_gratis = [(0, 20, infinity)%float].
Proof. vm_compute. reflexivity. Qed.

(** *** Sorting and distinct values *)

Section OrdenaFatos.
Context {A : Type} (leb : A -> A -> bool).

Lemma insere_perm x l : insere leb x l ≡ₚ x :: l.
Proof.
  induction l as [|y l IH]; [reflexivity|]. simpl.
  destruct (leb x y); [reflexivity|]. rewrite IH. apply Permutation_swap.
Qed.

Lemma ordena_perm l : ordena leb l ≡ₚ l.
Proof.
  induction l as [|x l IH]; [reflexivity|]. simpl.
  rewrite insere_perm. rewrite IH. reflexivity.
Qed.

Lemma ordena_elem l x : x ∈ ordena leb l <-> x ∈ l.
Proof. rewrite ordena_perm. reflexivity. Qed.

Lemma ordena_length l : length (ordena leb l) = length l.
Proof. rewrite ordena_perm. reflexivity. Qed.

End OrdenaFatos.

Lemma unique_elem `{EqDecision A} (l : list A) x : x ∈ unique l <-> x ∈ l.
Proof.
  induction l as [|y l IH]; [reflexivity|]. simpl.
  rewrite !elem_of_cons, list_elem_of_filter, IH.
  destruct (decide (x = y)); tauto.
Qed.

Lemma unique_NoDup `{EqDecision A} (l : list A) : NoDup (unique l).
Proof.
  induction l as [|y l IH]; simpl; [constructor|].
  apply NoDup_cons. split.
  - rewrite list_elem_of_filter. tauto.
  - apply NoDup_filter. exact IH.
Qed.

Lemma filter_todos {A} (P : A -> Prop) `{!forall x, Decision (P x)} (l : list A) :
  Forall P l -> filter P l = l.
Proof.
  induction 1 as [|x l Hx _ IH]; [reflexivity|].
  rewrite filter_cons_True by exact Hx. rewrite IH. reflexivity.
Qed.

(** *** The filter *)

Lemma uniforme_fmap {A B} (f : A -> B) (col : Linha -> option A) df :
  uniforme col df -> uniforme (fun r => f <$> col r) df.
Proof.
  intros [H|H]; [left|right]; eapply Forall_impl; try exact H; simpl.
  - intros r [x ->]. simpl. eauto.
  - intros r ->. reflexivity.
Qed.

Lemma sorted_elem (l : list (option string)) :
  Forall is_Some l \/ Forall (fun c => c = None) l ->
  exists ops, sorted l = Ok ops /\ forall c, c ∈ l -> c ∈ ops.
Proof.
  intros Hl. unfold sorted. case_bool_decide as H1; [|case_bool_decide as H2].
  - eexists. split; [reflexivity|]. intros c Hc.
    rewrite Forall_forall in H1. destruct (H1 c Hc) as [t ->].
    apply list_elem_of_fmap_2. apply ordena_elem.
    apply list_elem_of_omap. exists (Some t). auto.
  - exists l. auto.
  - tauto.
Qed.

Lemma opcoes_uniforme (col : Linha -> option string) df :
  uniforme col df ->
  exists ops, opcoes col df = Ok ops /\ forall r, r ∈ df -> col r ∈ ops.
Proof.
  intros Hu. unfold opcoes.
  destruct (sorted_elem (unique (col <$> df))) as (ops & Hs & Hin).
  - destruct Hu as [H|H]; [left|right]; apply Forall_forall; intros c Hc;
      apply unique_elem, list_elem_of_fmap in Hc; destruct Hc as (r & -> & Hr);
      rewrite Forall_forall in H; auto.
  - exists ops. split; [exact Hs|]. intros r Hr. apply Hin, unique_elem.
    apply list_elem_of_fmap_2. exact Hr.
Qed.

Lemma foldr_min_le t ts x : x ∈ t :: ts -> foldr Z.min t ts <= x.
Proof.
  induction ts as [|u ts IH]; simpl; intros H.
  - apply list_elem_of_singleton in H. lia.
  - apply elem_of_cons in H. destruct H as [->|H].
    + assert (foldr Z.min t ts <= t) by (apply IH; left). lia.
    + apply elem_of_cons in H. destruct H as [->|H]; [lia|].
      assert (foldr Z.min t ts <= x) by (apply IH; right; exact H). lia.
Qed.

Lemma foldr_max_ge t ts x : x ∈ t :: ts -> x <= foldr Z.max t ts.
Proof.
  induction ts as [|u ts IH]; simpl; intros H.
  - apply list_elem_of_singleton in H. lia.
  - apply elem_of_cons in H. destruct H as [->|H].
    + assert (t <= foldr Z.max t ts) by (apply IH; left). lia.
    + apply elem_of_cons in H. destruct H as [->|H]; [lia|].
      assert (x <= foldr Z.max t ts) by (apply IH; right; exact H). lia.
Qed.

Lemma data_mono a b : a <= b -> data a <= data b.
Proof. intros H. unfold data, segundos_por_dia. apply Z.div_le_mono; lia. Qed.

Lemma datas_entre_extremos df r :
  r ∈ df -> min_date df <= data (data_venda r) <= max_date df.
Proof.
  intros Hr. assert (Hin : data_venda r ∈ data_venda <$> df)
    by (apply list_elem_of_fmap_2; exact Hr).
  unfold min_date, max_date. destruct (data_venda <$> df) as [|t ts].
  - inversion Hin.
  - split; apply data_mono; [apply foldr_min_le | apply foldr_max_ge]; exact Hin.
Qed.

(** C3, as amended.  With the select-all entry chosen in every multiselect
    and the date range equal to the minimum and maximum sale dates, the
    filter returns the joined table unchanged, provided that no parent's
    attributes are null in some rows and filled in others (in particular,
    when every sale's product, customer and seller keys resolve). *)
Theorem filtro_selecionar_tudo hoje b df :
  Some "Todos"%string ∈ produtos b ->
  Some "Todas"%string ∈ categorias b ->
  Some "Todos"%string ∈ clientes b ->
  Some "Todas"%string ∈ regioes b ->
  Some "Todos"%string ∈ vendedores b ->
  periodo (min_date df) (max_date df) hoje b = (min_date df, max_date df) ->
  uniforme produto df -> uniforme cliente df -> uniforme vendedor df ->
  df_filtered_de hoje b df = Ok df.
Proof.
  intros Tp Tc Tl Tr Tv Hper Up Uc Uv. unfold df_filtered_de.
  destruct df as [|r0 df0] eqn:Edf; [reflexivity|]. rewrite <- Edf in *.
  rewrite Hper.
  destruct (opcoes_uniforme nome_produto df) as (o1 & -> & H1);
    [apply uniforme_fmap; exact Up|].
  destruct (opcoes_uniforme categoria_produto df) as (o2 & -> & H2);
    [apply uniforme_fmap; exact Up|].
  destruct (opcoes_uniforme nome_cliente df) as (o3 & -> & H3);
    [apply uniforme_fmap; exact Uc|].
  destruct (opcoes_uniforme regiao_cliente df) as (o4 & -> & H4);
    [apply uniforme_fmap; exact Uc|].
  destruct (opcoes_uniforme nome_vendedor df) as (o5 & -> & H5);
    [apply uniforme_fmap; exact Uv|].
  simpl. f_equal. apply filter_todos, Forall_forall. intros r Hr.
  unfold passa, expandir. rewrite !bool_decide_eq_true_2 by assumption.
  pose proof (datas_entre_extremos df r Hr). intuition.
Qed.

Lemma filtro_selecionar_tudo_witness :
  df_filtered_de 0 Exemplos.barra_todos Exemplos.df_simples = Ok Exemplos.df_simples.
Proof.
  apply (filtro_selecionar_tudo 0 Exemplos.barra_todos Exemplos.df_simples);
    try (left; reflexivity); try reflexivity;
    left; repeat constructor; eexists; reflexivity.
Defined.

Lemma uniforme_fmap_inv {A B} (f : A -> B) (col : Linha -> option A) df :
  uniforme (fun r => f <$> col r) df -> uniforme col df.
Proof.
  intros [H|H]; [left|right]; eapply Forall_impl; try exact H; simpl;
    intros r; destruct (col r); simpl; eauto.
  - intros [? ?]. discriminate.
  - discriminate.
Qed.

Lemma opcoes_Ok (col : Linha -> option string) df ops :
  opcoes col df = Ok ops -> uniforme col df.
Proof.
  unfold opcoes, sorted. intros H.
  assert (Hu : Forall is_Some (unique (col <$> df)) \/
               Forall (fun c => c = None) (unique (col <$> df))).
  { case_bool_decide; [auto|]. case_bool_decide; [auto | discriminate]. }
  destruct Hu as [Hu|Hu]; [left|right]; apply Forall_forall; intros r Hr;
    rewrite Forall_forall in Hu; apply (Hu (col r));
    apply unique_elem, list_elem_of_fmap_2; exact Hr.
Qed.

Lemma opcoes_Falha (col : Linha -> option string) df e :
  opcoes col df = Falha e -> e = TypeError.
Proof.
  unfold opcoes, sorted. repeat case_bool_decide; congruence.
Qed.

(** The other half of C3: with a table that has rows, the filter block
    raises [TypeError], whatever the widgets hold, as soon as the attributes
    of some parent are null in some rows and filled in others. *)
Lemma filtro_falha_com_nulos hoje b df :
  df <> [] ->
  ~ (uniforme produto df /\ uniforme cliente df /\ uniforme vendedor df) ->
  df_filtered_de hoje b df = Falha TypeError.
Proof.
  intros Hne Hmix. unfold df_filtered_de.
  destruct df as [|r0 df0] eqn:Edf; [congruence|]. rewrite <- Edf in *.
  destruct (periodo _ _ _ _) as [start_date end_date].
  unfold mbind, Res_bind.
  destruct (opcoes nome_produto df) eqn:E1;
    [|apply opcoes_Falha in E1; congruence].
  destruct (opcoes categoria_produto df) eqn:E2;
    [|apply opcoes_Falha in E2; congruence].
  destruct (opcoes nome_cliente df) eqn:E3;
    [|apply opcoes_Falha in E3; congruence].
  destruct (opcoes regiao_cliente df) eqn:E4;
    [|apply opcoes_Falha in E4; congruence].
  destruct (opcoes nome_vendedor df) eqn:E5;
    [|apply opcoes_Falha in E5; congruence].
  exfalso. apply Hmix. repeat split.
  - apply opcoes_Ok in E1. exact (uniforme_fmap_inv _ _ _ E1).
  - apply opcoes_Ok in E3. exact (uniforme_fmap_inv _ _ _ E3).
  - apply opcoes_Ok in E5. exact (uniforme_fmap_inv _ _ _ E5).
Qed.

(** C3, as stated, fails.  One sale whose product key has no product row
    puts a null among the product names; with select-all everywhere and the
    full date range, building the options raises [TypeError] and no filtered
    table comes back. *)
Lemma filtro_selecionar_tudo_falha :
  periodo (min_date Exemplos.df_orfa) (max_date Exemplos.df_orfa) 0
          Exemplos.barra_todos
    = (min_date Exemplos.df_orfa, max_date Exemplos.df_orfa) /\
  df_filtered_de 0 Exemplos.barra_todos Exemplos.df_orfa = Falha TypeError /\
  df_filtered_de 0 Exemplos.barra_todos Exemplos.df_orfa <> Ok Exemplos.df_orfa.
Proof.
  split; [reflexivity|]. assert (H :
    df_filtered_de 0 Exemplos.barra_todos Exemplos.df_orfa = Falha TypeError)
    by (vm_compute; reflexivity).
  split; [exact H|]. rewrite H. discriminate.
Qed.

(** C8.  Whatever the widgets hold, a filtered table is obtained from the
    joined table by dropping rows: its rows are rows of the joined table, as
    they are and in the same order, none more often than there. *)
Theorem filtro_seleciona hoje b df out :
  df_filtered_de hoje b df = Ok out ->
  out `sublist_of` df /\ (forall r, r ∈ out -> r ∈ df) /\
  (length out <= length df)%nat.
Proof.
  intros H. assert (Hsub : out `sublist_of` df).
  { unfold df_filtered_de in H. destruct df as [|r0 df0] eqn:Edf.
    - injection H as <-. reflexivity.
    - rewrite <- Edf in *. destruct (periodo _ _ _ _) as [start_date end_date].
      unfold mbind, Res_bind in H.
      destruct (opcoes nome_produto df); [|discriminate].
      destruct (opcoes categoria_produto df); [|discriminate].
      destruct (opcoes nome_cliente df); [|discriminate].
      destruct (opcoes regiao_cliente df); [|discriminate].
      destruct (opcoes nome_vendedor df); [|discriminate].
      injection H as <-. apply sublist_filter. }
  split; [exact Hsub|]. split.
  - intros r Hr. eapply sublist_subseteq; eassumption.
  - apply sublist_length. exact Hsub.
Qed.

Lemma filtro_seleciona_witness :
  take 1 Exemplos.df_simples `sublist_of` Exemplos.df_simples /\
  (forall r, r ∈ take 1 Exemplos.df_simples -> r ∈ Exemplos.df_simples) /\
  (length (take 1 Exemplos.df_simples) <= length Exemplos.df_simples)%nat.
Proof.
  apply (filtro_seleciona 0 Exemplos.barra_lapis). vm_compute. reflexivity.
Defined.

(** *** The KPIs *)

(** C7.  On an empty filtered table the KPI computation gives a total of
    zero, a profit of zero, zero transactions and an average ticket of zero;
    it is a total function, so nothing is raised.  The average is zero
    whenever the number of transactions is. *)
Theorem kpis_do_conjunto_vazio :
  total_vendas_valor (kpis []) = 0%float /\
  total_lucro_valor (kpis []) = 0%float /\
  num_transacoes (kpis []) = 0 /\
  ticket_medio (kpis []) = 0%float /\
  forall df, num_transacoes (kpis df) = 0 -> ticket_medio (kpis df) = 0%float.
Proof.
  repeat split. intros df H. unfold kpis in *. simpl in *.
  rewrite bool_decide_eq_false_2; [reflexivity | lia].
Qed.

(** The overview tab guards its whole block: on an empty filtered table it
    shows the notice and computes nothing. *)
Lemma visao_geral_vazia n :
  visao_geral n [] =
  Info "Nenhum dado disponível para os filtros selecionados na Visão Geral de Vendas.".
Proof. reflexivity. Qed.

(** *** Order on texts and on floats *)

Lemma ascii_compare_N a b :
  Ascii.compare a b = N.compare (N_of_ascii a) (N_of_ascii b).
Proof. reflexivity. Qed.

Lemma string_compare_refl s : String.compare s s = Eq.
Proof.
  induction s as [|a s IH]; simpl; [reflexivity|].
  rewrite ascii_compare_N, N.compare_refl. exact IH.
Qed.

Lemma string_compare_trans c s1 : forall s2 s3,
  String.compare s1 s2 = c -> String.compare s2 s3 = c -> String.compare s1 s3 = c.
Proof.
  induction s1 as [|a s1 IH]; intros [|b s2] [|d s3]; simpl; try congruence.
  rewrite !ascii_compare_N.
  destruct (N.compare_spec (N_of_ascii a) (N_of_ascii b));
    destruct (N.compare_spec (N_of_ascii b) (N_of_ascii d));
    destruct (N.compare_spec (N_of_ascii a) (N_of_ascii d));
    try congruence; try lia; eauto.
Qed.

Lemma string_leb_trans s1 s2 s3 :
  String.leb s1 s2 = true -> String.leb s2 s3 = true -> String.leb s1 s3 = true.
Proof.
  unfold String.leb.
  destruct (String.compare s1 s2) eqn:E1; try discriminate;
    destruct (String.compare s2 s3) eqn:E2; try discriminate; intros _ _.
  - apply String.compare_eq_iff in E1, E2. subst.
    rewrite string_compare_refl. reflexivity.
  - apply String.compare_eq_iff in E1. subst. rewrite E2. reflexivity.
  - apply String.compare_eq_iff in E2. subst. rewrite E1. reflexivity.
  - rewrite (string_compare_trans Lt _ _ _ E1 E2). reflexivity.
Qed.

Lemma string_ltb_leb s1 s2 :
  String.ltb s1 s2 = true <-> String.leb s1 s2 = true /\ s1 <> s2.
Proof.
  unfold String.ltb, String.leb. destruct (String.compare s1 s2) eqn:E.
  - apply String.compare_eq_iff in E. split; [discriminate | tauto].
  - split; [|reflexivity]. intros _. split; [reflexivity|]. intros ->.
    rewrite string_compare_refl in E. discriminate.
  - split; [discriminate | intros [? _]; discriminate].
Qed.

Lemma is_nan_spec x : is_nan x = false -> Prim2SF x <> S754_nan.
Proof.
  unfold is_nan. rewrite FloatAxioms.eqb_spec. intros H E. rewrite E in H.
  discriminate.
Qed.

Lemma pos_cont_spec m n :
  CompareSpec (m = n) (m < n)%positive (n < m)%positive (Pos.compare_cont Eq m n).
Proof. apply Pos.compare_spec. Qed.

(** Cases on the comparisons of exponents and mantissas. *)
Ltac casos_sf :=
  repeat match goal with
  | |- context [Z.compare ?a ?b] => destruct (Z.compare_spec a b)
  | |- context [Pos.compare_cont Eq ?a ?b] => destruct (pos_cont_spec a b)
  | H : context [Z.compare ?a ?b] |- _ => destruct (Z.compare_spec a b)
  | H : context [Pos.compare_cont Eq ?a ?b] |- _ => destruct (pos_cont_spec a b)
  end; simpl in *; try congruence; try lia.

Lemma SFleb_total f g :
  f <> S754_nan -> g <> S754_nan -> SFleb f g = true \/ SFleb g f = true.
Proof.
  intros Hf Hg. unfold SFleb, SFcompare.
  destruct f as [[]|[]| |[] m1 e1], g as [[]|[]| |[] m2 e2]; try congruence; auto;
    casos_sf; auto.
Qed.

Lemma SFleb_trans f g h :
  SFleb f g = true -> SFleb g h = true -> SFleb f h = true.
Proof.
  unfold SFleb, SFcompare.
  destruct f as [[]|[]| |[] m1 e1], g as [[]|[]| |[] m2 e2],
           h as [[]|[]| |[] m3 e3];
    try discriminate; try reflexivity; intros H1 H2; casos_sf.
Qed.

Lemma geb_float_total x y :
  is_nan x = false -> is_nan y = false ->
  geb_float x y = true \/ geb_float y x = true.
Proof.
  intros Hx Hy. unfold geb_float. rewrite !FloatAxioms.leb_spec.
  destruct (SFleb_total (Prim2SF x) (Prim2SF y)); auto using is_nan_spec.
Qed.

Lemma geb_float_trans x y z :
  geb_float x y = true -> geb_float y z = true -> geb_float x z = true.
Proof.
  unfold geb_float. rewrite !FloatAxioms.leb_spec. intros H1 H2.
  eapply SFleb_trans; eassumption.
Qed.

Lemma geb_int_total x y : geb_int x y = true \/ geb_int y x = true.
Proof. unfold geb_int. destruct (Z.leb_spec y x); [auto|right]. apply Z.leb_le. lia. Qed.

Lemma geb_int_trans x y z :
  geb_int x y = true -> geb_int y z = true -> geb_int x z = true.
Proof. unfold geb_int. rewrite !Z.leb_le. lia. Qed.

(** *** The insertion sort is a stable sort *)

Section OrdenaEstavel.
Context {A : Type} (leb : A -> A -> bool) (D : A -> Prop) (R : A -> A -> Prop).
Hypothesis leb_total :
  forall x y, D x -> D y -> leb x y = true \/ leb y x = true.
Hypothesis leb_trans :
  forall x y z, leb x y = true -> leb y z = true -> leb x z = true.

Lemma insere_ordenado x l :
  D x -> Forall D l -> Forall (R x) l ->
  StronglySorted (antes leb R) l -> StronglySorted (antes leb R) (insere leb x l).
Proof.
  intros Dx Dl Rl Hs. induction l as [|y l IH]; simpl.
  - repeat constructor.
  - apply StronglySorted_cons in Hs. destruct Hs as [Hy Hs].
    apply Forall_cons in Dl. destruct Dl as [Dy Dl].
    apply Forall_cons in Rl. destruct Rl as [Ry Rl].
    destruct (leb x y) eqn:Hxy.
    + apply StronglySorted_cons. split.
      * constructor; [split; auto|]. apply Forall_forall. intros z Hz.
        rewrite Forall_forall in Hy, Rl. split; [|auto].
        eapply leb_trans; [exact Hxy | apply Hy; exact Hz].
      * apply StronglySorted_cons. auto.
    + apply StronglySorted_cons. split; [|auto].
      apply Forall_forall. intros z Hz.
      rewrite (insere_perm leb) in Hz. apply elem_of_cons in Hz.
      destruct Hz as [->|Hz].
      * split; [|congruence].
        destruct (leb_total x y Dx Dy); [congruence | assumption].
      * rewrite Forall_forall in Hy. auto.
Qed.

Lemma ordena_ordenado l :
  Forall D l -> StronglySorted R l -> StronglySorted (antes leb R) (ordena leb l).
Proof.
  intros Dl Hs. induction l as [|x l IH]; simpl; [constructor|].
  apply StronglySorted_cons in Hs. destruct Hs as [Hx Hs].
  apply Forall_cons in Dl. destruct Dl as [Dx Dl].
  apply insere_ordenado; auto.
  - apply Forall_forall. intros y Hy. apply ordena_elem in Hy.
    rewrite Forall_forall in Dl. auto.
  - apply Forall_forall. intros y Hy. apply ordena_elem in Hy.
    rewrite Forall_forall in Hx. auto.
Qed.

End OrdenaEstavel.

(** *** Grouping *)

Lemma StronglySorted_mono {A} (R R' : relation A) (D : A -> Prop) l :
  Forall D l -> (forall x y, D x -> D y -> R x y -> R' x y) ->
  StronglySorted R l -> StronglySorted R' l.
Proof.
  intros Dl Himp Hs. induction Hs as [|x l Hs IH Hx]; [constructor|].
  apply Forall_cons in Dl. destruct Dl as [Dx Dl]. constructor; [auto|].
  rewrite Forall_forall in *. auto.
Qed.

Lemma StronglySorted_filtro {A} (R : relation A) (P : A -> Prop)
    `{!forall x, Decision (P x)} l :
  StronglySorted R l -> StronglySorted R (filter P l).
Proof.
  induction 1 as [|x l Hs IH Hx]; [constructor|].
  rewrite filter_cons. destruct (decide (P x)); [|exact IH].
  constructor; [exact IH|]. apply Forall_forall. intros y Hy.
  apply list_elem_of_filter in Hy. rewrite Forall_forall in Hx. apply Hx. tauto.
Qed.

Lemma NoDup_distintos {A} (l : list A) :
  NoDup l -> StronglySorted (fun x y => x <> y) l.
Proof.
  induction 1 as [|x l Hx _ IH]; constructor; [exact IH|].
  apply Forall_forall. intros y Hy ->. contradiction.
Qed.

Lemma grupos_ordenados chave df : StronglySorted texto_menor (grupos chave df).
Proof.
  unfold grupos.
  eapply (StronglySorted_mono (antes String.leb (fun x y => x <> y)) _
                              (fun _ => True)).
  - apply Forall_forall. auto.
  - intros x y _ _ [Hle Hne]. apply string_ltb_leb. split; [exact Hle|].
    intros ->. apply Hne; [exact Hle | reflexivity].
  - apply (ordena_ordenado String.leb (fun _ => True)).
    + intros x y _ _. apply String.leb_total.
    + apply string_leb_trans.
    + apply Forall_forall. auto.
    + apply NoDup_distintos, unique_NoDup.
Qed.

Lemma grupos_elem chave df k :
  k ∈ grupos chave df <-> Some k ∈ chave <$> df.
Proof.
  unfold grupos. rewrite ordena_elem, unique_elem, list_elem_of_omap.
  rewrite list_elem_of_fmap. split.
  - intros (r & Hr & Hk). eauto.
  - intros (r & Hk & Hr). eauto.
Qed.

Lemma grupos_NoDup chave df : NoDup (grupos chave df).
Proof. unfold grupos. rewrite ordena_perm. apply unique_NoDup. Qed.

(** The groups are as many as the distinct non-null keys. *)
Lemma grupos_length chave df :
  length (grupos chave df) = size (list_to_set (omap chave df) : gset string).
Proof.
  unfold grupos. rewrite ordena_length.
  rewrite <- (size_list_to_set (C := gset string)) by apply unique_NoDup.
  f_equal. apply set_eq. intros k.
  rewrite !elem_of_list_to_set. apply unique_elem.
Qed.

(** *** Ranking *)

Section Ranking.
Context {V : Type} (total : list V -> V) (nulo : V -> bool) (geb : V -> V -> bool).

Lemma particao_perm (s : list (string * V)) :
  filter (fun x => nulo x.2 = false) s ++ filter (fun x => nulo x.2 = true) s ≡ₚ s.
Proof.
  induction s as [|x s IH]; [reflexivity|].
  rewrite !filter_cons. destruct (nulo x.2) eqn:Hx; simpl.
  - destruct (decide (true = false)) as [?|_]; [discriminate|].
    destruct (decide (true = true)) as [_|?]; [|congruence].
    rewrite <- Permutation_middle. rewrite IH. reflexivity.
  - destruct (decide (false = false)) as [_|?]; [|congruence].
    destruct (decide (false = true)) as [?|_]; [discriminate|].
    simpl. rewrite IH. reflexivity.
Qed.

Lemma classificacao_perm (s : list (string * V)) :
  ordena (fun x y => geb x.2 y.2) (filter (fun x => nulo x.2 = false) s)
    ++ filter (fun x => nulo x.2 = true) s ≡ₚ s.
Proof. rewrite ordena_perm. apply particao_perm. Qed.

Lemma nlargest_length n (s : list (string * V)) :
  length (nlargest nulo geb n s) = Nat.min (Z.to_nat n) (length s).
Proof.
  unfold nlargest. rewrite length_take. f_equal.
  rewrite classificacao_perm. reflexivity.
Qed.

Lemma groupby_sum_chaves chave (valor : Linha -> V) df :
  (groupby_sum total chave valor df).*1 = grupos chave df.
Proof.
  unfold groupby_sum. rewrite <- list_fmap_compose. simpl. apply list_fmap_id.
Qed.

Lemma groupby_sum_elem chave (valor : Linha -> V) df k v :
  (k, v) ∈ groupby_sum total chave valor df ->
  v = total (valor <$> filter (fun r => chave r = Some k) df).
Proof.
  unfold groupby_sum. intros H. apply list_elem_of_fmap in H.
  destruct H as (k' & Heq & _). injection Heq as -> ->. reflexivity.
Qed.

Lemma groupby_sum_ordenado chave (valor : Linha -> V) df :
  StronglySorted (fun x y => texto_menor x.1 y.1) (groupby_sum total chave valor df).
Proof.
  unfold groupby_sum.
  eapply StronglySorted_fmap; [|apply grupos_ordenados]. auto.
Qed.

Hypothesis geb_total :
  forall x y, nulo x = false -> nulo y = false ->
              geb x y = true \/ geb y x = true.
Hypothesis geb_trans :
  forall x y z, geb x y = true -> geb y z = true -> geb x z = true.

Lemma classificacao_ordenada (s : list (string * V)) :
  StronglySorted (fun x y => texto_menor x.1 y.1) s ->
  StronglySorted (precede nulo geb)
    (ordena (fun x y => geb x.2 y.2) (filter (fun x => nulo x.2 = false) s)
     ++ filter (fun x => nulo x.2 = true) s).
Proof.
  intros Hs. apply StronglySorted_app_2.
  - intros x y Hx Hy. apply ordena_elem, list_elem_of_filter in Hx.
    apply list_elem_of_filter in Hy. unfold precede.
    rewrite (proj1 Hx), (proj1 Hy). exact I.
  - eapply (StronglySorted_mono
              (antes (fun x y => geb x.2 y.2) (fun x y => texto_menor x.1 y.1)) _
              (fun x => nulo x.2 = false)).
    + apply Forall_forall. intros x Hx.
      apply ordena_elem, list_elem_of_filter in Hx. tauto.
    + intros x y Hx Hy Hxy. unfold precede. rewrite Hx, Hy. exact Hxy.
    + apply (ordena_ordenado (fun x y => geb x.2 y.2)
                             (fun x => nulo x.2 = false)).
      * intros x y. apply geb_total.
      * intros x y z. apply geb_trans.
      * apply Forall_forall. intros x Hx. apply list_elem_of_filter in Hx. tauto.
      * apply StronglySorted_filtro. exact Hs.
  - eapply (StronglySorted_mono (fun x y => texto_menor x.1 y.1) _
                                (fun x => nulo x.2 = true)).
    + apply Forall_forall. intros x Hx. apply list_elem_of_filter in Hx. tauto.
    + intros x y Hx Hy Hxy. unfold precede. rewrite Hx, Hy. exact Hxy.
    + apply StronglySorted_filtro. exact Hs.
Qed.

Lemma nlargest_groupby_ranking chave (valor : Linha -> V) n df :
  ranking_de total nulo geb chave valor n df
             (nlargest nulo geb n (groupby_sum total chave valor df)).
Proof.
  set (g := groupby_sum total chave valor df).
  set (c := ordena (fun x y => geb x.2 y.2) (filter (fun x => nulo x.2 = false) g)
            ++ filter (fun x => nulo x.2 = true) g).
  assert (Hc : c ≡ₚ g) by apply classificacao_perm.
  exists (drop (Z.to_nat n) c).
  assert (Htd : nlargest nulo geb n g ++ drop (Z.to_nat n) c = c)
    by apply take_drop.
  rewrite Htd. repeat split.
  - rewrite Hc. unfold g. rewrite groupby_sum_chaves. apply grupos_NoDup.
  - rewrite Hc. unfold g. rewrite groupby_sum_chaves. apply grupos_elem.
  - rewrite Hc. unfold g. rewrite groupby_sum_chaves. apply grupos_elem.
  - intros k v Hkv. rewrite Hc in Hkv. eapply groupby_sum_elem. exact Hkv.
  - apply classificacao_ordenada. apply groupby_sum_ordenado.
  - rewrite nlargest_length, Hc. reflexivity.
Qed.

End Ranking.

(** C6, as amended.  For every filtered table, every dimension (seller,
    product, customer), both metrics (sale value, quantity) and every [n], in
    particular every [n] from 3 to 20: the Top-N ranking has one candidate
    per distinct non-null value of the dimension, valued by the sum of the
    metric over the rows of that value, and returns the [n] first candidates
    (all of them when there are fewer) in decreasing order of sum, candidates
    of equal sum in increasing order of their key, a null sum after the
    others. *)
Theorem top_n_classifica d n df :
  ranking_de soma is_nan geb_float (coluna d) valor_total_venda n df
             (top_valor d n df) /\
  ranking_de soma_int (fun _ => false) geb_int (coluna d) quantidade_vendida n df
             (top_quantidade d n df).
Proof.
  split; apply nlargest_groupby_ranking.
  - apply geb_float_total.
  - apply geb_float_trans.
  - intros x y _ _. apply geb_int_total.
  - apply geb_int_trans.
Qed.

(** C6, as stated, fails.  Four sellers have the same total and Zeca's
    sale comes first in the table.  The dashboard's Top 3 is Alice, Beto and
    Caio, by name; ties broken by first-encountered order would give Zeca,
    Beto and Alice. *)
Lemma top_n_empate_por_chave :
  top_valor PorVendedor 3 Exemplos.df_empate =
    [("Alice", 40); ("Beto", 40); ("Caio", 40)]%string%float /\
  Especificacao.top_valor_primeira_ocorrencia PorVendedor 3 Exemplos.df_empate =
    [("Zeca", 40); ("Beto", 40); ("Alice", 40)]%string%float /\
  top_valor PorVendedor 3 Exemplos.df_empate <>
    Especificacao.top_valor_primeira_ocorrencia PorVendedor 3 Exemplos.df_empate.
Proof.
  assert (H1 : top_valor PorVendedor 3 Exemplos.df_empate =
               [("Alice", 40); ("Beto", 40); ("Caio", 40)]%string%float)
    by (vm_compute; reflexivity).
  assert (H2 : Especificacao.top_valor_primeira_ocorrencia PorVendedor 3
                 Exemplos.df_empate =
               [("Zeca", 40); ("Beto", 40); ("Alice", 40)]%string%float)
    by (vm_compute; reflexivity).
  split; [exact H1|]. split; [exact H2|]. rewrite H1, H2. discriminate.
Qed.

(** C10.  For every filtered table, every dimension, both metrics and
    every [n] that is not negative, in particular every [n] from 3 to 20, the
    Top-N ranking has exactly min([n], number of distinct non-null values of
    the dimension) entries. *)
Theorem top_n_tamanho d n df :
  0 <= n ->
  Z.of_nat (length (top_valor d n df)) =
    Z.min n (Z.of_nat (size (list_to_set (omap (coluna d) df) : gset string))) /\
  Z.of_nat (length (top_quantidade d n df)) =
    Z.min n (Z.of_nat (size (list_to_set (omap (coluna d) df) : gset string))).
Proof.
  intros Hn. unfold top_valor, top_quantidade. rewrite !nlargest_length.
  assert (Hg : forall {V} (total : list V -> V) (valor : Linha -> V),
            length (groupby_sum total (coluna d) valor df) =
            size (list_to_set (omap (coluna d) df) : gset string)).
  { intros V total valor. rewrite <- grupos_length.
    rewrite <- (groupby_sum_chaves total _ valor). rewrite length_fmap.
    reflexivity. }
  rewrite !Hg. lia.
Qed.

Lemma top_n_tamanho_witness :
  Z.of_nat (length (top_valor PorVendedor 5 Exemplos.df_empate)) =
    Z.min 5 (Z.of_nat (size (list_to_set
               (omap (coluna PorVendedor) Exemplos.df_empate) : gset string))) /\
  Z.of_nat (length (top_quantidade PorVendedor 5 Exemplos.df_empate)) =
    Z.min 5 (Z.of_nat (size (list_to_set
               (omap (coluna PorVendedor) Exemplos.df_empate) : gset string))).
Proof. apply (top_n_tamanho PorVendedor 5 Exemplos.df_empate). lia. Defined.

(** With four sellers, a Top 5 has four entries. *)
Example top_5_de_quatro :
  length (top_valor PorVendedor 5 Exemplos.df_empate) = 4%nat /\
  (top_quantidade PorVendedor 5 Exemplos.df_empate).*1 =
    ["Alice"; "Beto"; "Caio"; "Zeca"]%string.
Proof. vm_compute. auto. Qed.

Import Dominios.

(** ** Further properties of the dashboard *)

(** *** Loading, joining and the calculated columns *)

(** X5.  The dashboard stops before building the joined table exactly when
    one of [produtos.csv], [clientes.csv], [vendedores.csv] and [vendas.csv]
    is missing; otherwise the joined table is the transformation of those
    four tables.  [fornecedores.csv] has no say. *)
Theorem painel_para_sem_arquivo (d : Disco) :
  match df_merged_de d with
  | Some df =>
      exists ps cs ss vs,
        produtos_csv d = Some ps /\ clientes_csv d = Some cs /\
        vendedores_csv d = Some ss /\ vendas_csv d = Some vs /\
        df = transformar ps cs ss vs
  | None =>
      produtos_csv d = None \/ clientes_csv d = None \/
      vendedores_csv d = None \/ vendas_csv d = None
  end.
Proof.
  unfold df_merged_de, load_data, read_csv.
  destruct (produtos_csv d) as [ps|]; [|simpl; auto].
  destruct (clientes_csv d) as [cs|]; [|simpl; auto].
  destruct (vendedores_csv d) as [ss|]; [|simpl; auto].
  destruct (vendas_csv d) as [vs|]; [|simpl; auto].
  simpl. exists ps, cs, ss, vs. auto.
Qed.

Lemma unique_length_set (l : list Z) :
  length (unique l) = size (list_to_set l : gset Z).
Proof.
  rewrite <- (size_list_to_set (C := gset Z)) by apply unique_NoDup.
  f_equal. apply set_eq. intros k. rewrite !elem_of_list_to_set.
  apply unique_elem.
Qed.

Lemma nunique_mesmos_elementos (l k : list Z) :
  (forall x, x ∈ l <-> x ∈ k) -> nunique l = nunique k.
Proof.
  intros H. unfold nunique. rewrite !unique_length_set. do 2 f_equal.
  apply set_eq. intros x. rewrite !elem_of_list_to_set. apply H.
Qed.

Lemma transformar_mesmas_vendas ps cs ss vs v :
  v ∈ venda <$> transformar ps cs ss vs <-> v ∈ vs.
Proof.
  split.
  - intros H. apply list_elem_of_fmap in H. destruct H as (r & -> & Hr).
    apply (transformar_linha ps cs ss vs r Hr).
  - intros H. eapply sublist_subseteq; [|exact H].
    rewrite transformar_vendas.
    set (df1 := merge_left Venda.id_produto Produto.id_produto vs ps).
    set (df2 := merge_left _ Cliente.id_cliente df1 cs).
    transitivity (df1.*1); [apply merge_left_sublist|]. apply fmap_sublist.
    transitivity (df2.*1); [apply merge_left_sublist|]. apply fmap_sublist.
    apply merge_left_sublist.
Qed.

(** X6.  The join may repeat a sale, when a parent key is repeated, but it
    neither loses nor invents one: the joined table has at least as many rows
    as the sales table, and the KPI "number of transactions", which counts
    distinct sale ids, is the number of distinct sale ids of the sales
    table. *)
Theorem transacoes_da_juncao ps cs ss vs :
  (length vs <= length (transformar ps cs ss vs))%nat /\
  num_transacoes (kpis (transformar ps cs ss vs)) = nunique (Venda.id_venda <$> vs).
Proof.
  split.
  - rewrite <- (length_fmap venda (transformar ps cs ss vs)).
    apply sublist_length. rewrite transformar_vendas.
    set (df1 := merge_left Venda.id_produto Produto.id_produto vs ps).
    set (df2 := merge_left _ Cliente.id_cliente df1 cs).
    transitivity (df1.*1); [apply merge_left_sublist|]. apply fmap_sublist.
    transitivity (df2.*1); [apply merge_left_sublist|]. apply fmap_sublist.
    apply merge_left_sublist.
  - unfold kpis. cbn [num_transacoes]. apply nunique_mesmos_elementos.
    intros x. unfold id_venda.
    rewrite (list_fmap_compose venda Venda.id_venda).
    rewrite !list_elem_of_fmap. split.
    + intros (v & -> & Hv). exists v. split; [reflexivity|].
      apply (proj1 (transformar_mesmas_vendas ps cs ss vs v)). exact Hv.
    + intros (v & -> & Hv). exists v. split; [reflexivity|].
      apply (proj2 (transformar_mesmas_vendas ps cs ss vs v)). exact Hv.
Qed.

(** With the product key repeated, one sale gives two rows and still
    counts as one transaction. *)
Example transacoes_com_chave_repetida :
  option_map (fun df => (length df, num_transacoes (kpis df)))
             (df_merged_de Exemplos.disco_chave_repetida) = Some (2%nat, 1).
Proof. vm_compute. reflexivity. Qed.

Lemma completa_uniforme df :
  Forall completa df ->
  uniforme produto df /\ uniforme cliente df /\ uniforme vendedor df.
Proof.
  intros H. repeat split; left; eapply Forall_impl; try exact H;
    intros r (? & ? & ?); assumption.
Qed.

Lemma filtro_Ok_uniforme hoje b df :
  uniforme produto df -> uniforme cliente df -> uniforme vendedor df ->
  exists out, df_filtered_de hoje b df = Ok out.
Proof.
  intros Up Uc Uv. unfold df_filtered_de.
  destruct df as [|r0 df0] eqn:Edf; [eauto|]. rewrite <- Edf in *.
  destruct (periodo _ _ _ _) as [start_date end_date].
  destruct (opcoes_uniforme nome_produto df) as (o1 & -> & _);
    [apply uniforme_fmap; exact Up|].
  destruct (opcoes_uniforme categoria_produto df) as (o2 & -> & _);
    [apply uniforme_fmap; exact Up|].
  destruct (opcoes_uniforme nome_cliente df) as (o3 & -> & _);
    [apply uniforme_fmap; exact Uc|].
  destruct (opcoes_uniforme regiao_cliente df) as (o4 & -> & _);
    [apply uniforme_fmap; exact Uc|].
  destruct (opcoes_uniforme nome_vendedor df) as (o5 & -> & _);
    [apply uniforme_fmap; exact Uv|].
  simpl. eauto.
Qed.

(** X7.  When every sale's product, customer and seller keys have a row in
    their tables, no joined row has a null attribute, and the sidebar block
    raises nothing, whatever the widgets hold. *)
Theorem chaves_resolvidas_sem_nulos hoje b ps cs ss vs :
  (forall v, v ∈ vs ->
     Venda.id_produto v ∈ (Produto.id_produto <$> ps) /\
     Venda.id_cliente v ∈ (Cliente.id_cliente <$> cs) /\
     Venda.id_vendedor v ∈ (Vendedor.id_vendedor <$> ss)) ->
  Forall completa (transformar ps cs ss vs) /\
  exists out, df_filtered_de hoje b (transformar ps cs ss vs) = Ok out.
Proof.
  intros Hfk. assert (Hc : Forall completa (transformar ps cs ss vs)).
  { apply Forall_forall. intros r Hr.
    destruct (transformar_linha ps cs ss vs r Hr) as (Hv & Hp & Hcl & Hs).
    destruct (Hfk _ Hv) as (Fp & Fc & Fs). unfold completa, casado in *.
    destruct (produto r), (cliente r), (vendedor r);
      repeat split; eauto; contradiction. }
  split; [exact Hc|].
  destruct (completa_uniforme _ Hc) as (Up & Uc & Uv).
  apply filtro_Ok_uniforme; assumption.
Qed.

Lemma chaves_resolvidas_sem_nulos_witness :
  Forall completa Exemplos.df_simples /\
  exists out, df_filtered_de 0 Exemplos.barra_lapis Exemplos.df_simples = Ok out.
Proof.
  apply (chaves_resolvidas_sem_nulos 0 Exemplos.barra_lapis
           [Exemplos.caneta; Exemplos.lapis; Exemplos.bola] [Exemplos.ana]
           [Exemplos.zeca; Exemplos.beto]
           [Exemplos.venda_lapis; Exemplos.venda_caneta]).
  intros v Hv. apply elem_of_cons in Hv. destruct Hv as [->|Hv].
  - vm_compute. repeat split; repeat constructor.
  - apply list_elem_of_singleton in Hv. subst v. vm_compute.
    repeat split; repeat constructor.
Defined.

Lemma nan_vezes x : (nan * x)%float = nan.
Proof.
  apply Prim2SF_inj. rewrite mul_spec.
  change (Prim2SF nan) with S754_nan. reflexivity.
Qed.

Lemma nan_dividido x : (nan / x)%float = nan.
Proof.
  apply Prim2SF_inj. rewrite div_spec.
  change (Prim2SF nan) with S754_nan. reflexivity.
Qed.

(** X8.  A joined row whose sale has no product row has a NaN profit, so
    the profit sums skip it, and a margin of zero. *)
Theorem venda_sem_produto ps cs ss vs r :
  r ∈ transformar ps cs ss vs -> produto r = None ->
  lucro_venda r = nan /\ margem_lucro_percentual r = 0%float.
Proof.
  unfold transformar. intros H Hp. apply list_elem_of_fmap in H.
  destruct H as ([[[v p] c] s] & -> & _). simpl in Hp. subst p.
  unfold calcular. cbn [lucro_venda margem_lucro_percentual].
  change (celula (Produto.preco_venda_unitario <$> None) -
          celula (Produto.preco_custo <$> None))%float with nan.
  rewrite !nan_vezes, nan_dividido, nan_vezes. split; reflexivity.
Qed.

Lemma venda_sem_produto_witness :
  lucro_venda (calcular (Exemplos.venda_orfa, None, Some Exemplos.ana,
                         Some Exemplos.beto)) = nan /\
  margem_lucro_percentual (calcular (Exemplos.venda_orfa, None, Some Exemplos.ana,
                                     Some Exemplos.beto)) = 0%float.
Proof.
  apply (venda_sem_produto [Exemplos.caneta; Exemplos.lapis; Exemplos.bola]
           [Exemplos.ana] [Exemplos.zeca; Exemplos.beto]
           [Exemplos.venda_lapis; Exemplos.venda_caneta; Exemplos.venda_orfa]).
  - vm_compute. do 2 right. left.
  - reflexivity.
Defined.

(** *** The sidebar filter *)

Lemma filter_ext_elem {A} (P Q : A -> Prop) `{!forall x, Decision (P x)}
    `{!forall x, Decision (Q x)} (l : list A) :
  (forall x, x ∈ l -> P x <-> Q x) -> filter P l = filter Q l.
Proof.
  induction l as [|x l IH]; intros Heq; [reflexivity|].
  rewrite !filter_cons. rewrite IH by (intros y Hy; apply Heq; right; exact Hy).
  assert (Hx : P x <-> Q x) by (apply Heq; left).
  destruct (decide (P x)), (decide (Q x)); try reflexivity; tauto.
Qed.

Lemma opcoes_contem (col : Linha -> option string) df ops r :
  opcoes col df = Ok ops -> r ∈ df -> col r ∈ ops.
Proof.
  intros Ho Hr. destruct (opcoes_uniforme col df) as (ops' & Ho' & Hin).
  - eapply opcoes_Ok. exact Ho.
  - rewrite Ho in Ho'. injection Ho' as <-. auto.
Qed.

Lemma expandir_escolhido (col : Linha -> option string) df ops todos sel r :
  opcoes col df = Ok ops -> r ∈ df ->
  col r ∈ expandir todos sel ops <-> escolhido todos sel (col r).
Proof.
  intros Ho Hr. unfold expandir, escolhido. case_bool_decide as Ht.
  - split; [auto|]. intros _. eapply opcoes_contem; eassumption.
  - tauto.
Qed.

(** X9.  When the sidebar block raises nothing, the filtered table is the
    joined table restricted to the rows whose sale date lies in the chosen
    period, both ends included, and whose product name, category, customer
    name, region and seller name are each accepted by their multiselect: a
    multiselect accepts every cell when its select-all entry is chosen, alone
    or among others, and otherwise the cells that are chosen. *)
Theorem filtro_caracterizado hoje b df out :
  df_filtered_de hoje b df = Ok out ->
  out = filter (atende (periodo (min_date df) (max_date df) hoje b) b) df.
Proof.
  unfold df_filtered_de. destruct df as [|r0 df0] eqn:Edf.
  - intros H. injection H as <-. reflexivity.
  - rewrite <- Edf. clear Edf.
    destruct (periodo _ _ _ _) as [start_date end_date].
    unfold mbind, Res_bind.
    destruct (opcoes nome_produto df) as [o1|] eqn:E1; [|discriminate].
    destruct (opcoes categoria_produto df) as [o2|] eqn:E2; [|discriminate].
    destruct (opcoes nome_cliente df) as [o3|] eqn:E3; [|discriminate].
    destruct (opcoes regiao_cliente df) as [o4|] eqn:E4; [|discriminate].
    destruct (opcoes nome_vendedor df) as [o5|] eqn:E5; [|discriminate].
    intros H. injection H as <-. apply filter_ext_elem. intros r Hr.
    unfold passa, atende. cbn [fst snd].
    rewrite (expandir_escolhido nome_produto df o1) by assumption.
    rewrite (expandir_escolhido categoria_produto df o2) by assumption.
    rewrite (expandir_escolhido nome_cliente df o3) by assumption.
    rewrite (expandir_escolhido regiao_cliente df o4) by assumption.
    rewrite (expandir_escolhido nome_vendedor df o5) by assumption.
    reflexivity.
Qed.

Lemma filtro_caracterizado_witness :
  take 1 Exemplos.df_simples =
  filter (atende (periodo (min_date Exemplos.df_simples)
                          (max_date Exemplos.df_simples) 0 Exemplos.barra_lapis)
                 Exemplos.barra_lapis) Exemplos.df_simples.
Proof.
  apply (filtro_caracterizado 0 Exemplos.barra_lapis). vm_compute. reflexivity.
Defined.

(** X10.  When the sidebar block raises nothing, a multiselect left with
    no entry, or a period that starts after it ends, gives an empty filtered
    table. *)
Theorem filtro_sem_escolha hoje b df out :
  df_filtered_de hoje b df = Ok out ->
  produtos b = [] \/ categorias b = [] \/ clientes b = [] \/ regioes b = [] \/
  vendedores b = [] \/
  (periodo (min_date df) (max_date df) hoje b).2 <
  (periodo (min_date df) (max_date df) hoje b).1 ->
  out = [].
Proof.
  intros H Hvazio. apply filtro_caracterizado in H. subst out.
  destruct (filter _ df) as [|r rs] eqn:Ef; [reflexivity|]. exfalso.
  assert (Hr : r ∈ filter (atende (periodo (min_date df) (max_date df) hoje b) b) df)
    by (rewrite Ef; left).
  apply list_elem_of_filter in Hr. destruct Hr as [Ha _].
  destruct Ha as (A1 & A2 & [Tp|Sp] & [Tc|Sc] & [Tl|Sl] & [Tr|Sr] & [Tv|Sv]);
    destruct Hvazio as [E|[E|[E|[E|[E|E]]]]];
    try lia; rewrite E in *;
    match goal with H : _ ∈ [] |- _ => inversion H end.
Qed.

Lemma filtro_sem_escolha_witness :
  df_filtered_de 0
    {| periodo_da_venda := OutroRetorno; data_da_venda := 0;
       produtos := []; categorias := [Some "Todas"%string];
       clientes := [Some "Todos"%string]; regioes := [Some "Todas"%string];
       vendedores := [Some "Todos"%string] |} Exemplos.df_simples = Ok [].
Proof.
  assert (H : exists out, df_filtered_de 0
    {| periodo_da_venda := OutroRetorno; data_da_venda := 0;
       produtos := []; categorias := [Some "Todas"%string];
       clientes := [Some "Todos"%string]; regioes := [Some "Todas"%string];
       vendedores := [Some "Todos"%string] |} Exemplos.df_simples = Ok out).
  { eexists. vm_compute. reflexivity. }
  destruct H as [out H]. rewrite H. f_equal.
  apply (filtro_sem_escolha _ _ _ _ H). left. reflexivity.
Defined.

(** *** The KPIs of a table with rows *)

Lemma unique_length `{EqDecision A} (l : list A) :
  (length (unique l) <= length l)%nat.
Proof.
  induction l as [|x l IH]; simpl; [lia|].
  pose proof (length_filter (fun y => y <> x) (unique l)). lia.
Qed.

Lemma unique_NoDup_id `{EqDecision A} (l : list A) : NoDup l -> unique l = l.
Proof.
  induction 1 as [|x l Hx _ IH]; simpl; [reflexivity|]. rewrite IH. f_equal.
  apply filter_todos, Forall_forall. intros y Hy ->. contradiction.
Qed.

(** X11.  On a filtered table with rows the number of transactions is at
    least 1 and at most the number of rows, which it equals when the sale ids
    are distinct, and the average ticket is the total of sales divided by the
    number of transactions: the fallback of zero is never taken there. *)
Theorem kpis_com_linhas df :
  df <> [] ->
  1 <= num_transacoes (kpis df) <= Z.of_nat (length df) /\
  (NoDup (id_venda <$> df) -> num_transacoes (kpis df) = Z.of_nat (length df)) /\
  ticket_medio (kpis df) =
    (total_vendas_valor (kpis df) / float_of_Z (num_transacoes (kpis df)))%float.
Proof.
  intros Hne. unfold kpis.
  cbn [num_transacoes ticket_medio total_vendas_valor].
  assert (Hn : 1 <= nunique (id_venda <$> df) <= Z.of_nat (length df)).
  { unfold nunique. pose proof (unique_length (id_venda <$> df)) as Hle.
    rewrite length_fmap in Hle. destruct df as [|r df]; [congruence|].
    simpl in *. lia. }
  split; [exact Hn|]. split.
  - intros Hnd. unfold nunique. rewrite unique_NoDup_id by exact Hnd.
    rewrite length_fmap. reflexivity.
  - rewrite bool_decide_eq_true_2 by lia. reflexivity.
Qed.

Lemma kpis_com_linhas_witness :
  1 <= num_transacoes (kpis Exemplos.df_simples)
    <= Z.of_nat (length Exemplos.df_simples) /\
  (NoDup (id_venda <$> Exemplos.df_simples) ->
   num_transacoes (kpis Exemplos.df_simples) = Z.of_nat (length Exemplos.df_simples)) /\
  ticket_medio (kpis Exemplos.df_simples) =
    (total_vendas_valor (kpis Exemplos.df_simples) /
     float_of_Z (num_transacoes (kpis Exemplos.df_simples)))%float.
Proof. apply (kpis_com_linhas Exemplos.df_simples). discriminate. Defined.

(** *** The grouped sums *)

Lemma groupby_sum_agrupado {V} (total : list V -> V) chave (valor : Linha -> V) df :
  agrupado total chave valor df (groupby_sum total chave valor df).
Proof.
  repeat split.
  - rewrite groupby_sum_chaves. apply grupos_ordenados.
  - rewrite groupby_sum_chaves. intros Hk. apply grupos_elem in Hk.
    apply list_elem_of_fmap in Hk. destruct Hk as (r & Hk & Hr). eauto.
  - rewrite groupby_sum_chaves. intros (r & Hr & Hk). apply grupos_elem.
    rewrite <- Hk. apply list_elem_of_fmap_2. exact Hr.
  - apply groupby_sum_elem.
Qed.

Lemma ordena_ja_ordenado {A} (leb : A -> A -> bool) (l : list A) :
  StronglySorted (fun x y => leb x y = true) l -> ordena leb l = l.
Proof.
  induction 1 as [|x l Hs IH Hx]; [reflexivity|]. simpl. rewrite IH.
  destruct l as [|y l]; [reflexivity|]. simpl.
  apply Forall_cons in Hx. destruct Hx as [-> _]. reflexivity.
Qed.

(** X12.  The monthly series has one entry per month in which the
    filtered table has a sale, in increasing order of the month label; each
    entry holds the sum of the sale totals and the sum of the profits of that
    month's rows.  Sorting it by month after the grouping changes nothing. *)
Theorem evolucao_mensal df :
  StronglySorted texto_menor (df_evolucao df).*1 /\
  (forall m, m ∈ (df_evolucao df).*1 <-> exists r, r ∈ df /\ ano_mes_venda r = m) /\
  (forall m v l, (m, (v, l)) ∈ df_evolucao df ->
     v = soma (valor_total_venda <$> filter (fun r => ano_mes_venda r = m) df) /\
     l = soma (lucro_venda <$> filter (fun r => ano_mes_venda r = m) df)) /\
  df_evolucao df =
    groupby_sum (fun l => (soma (fst <$> l), soma (snd <$> l)))
                (fun r => Some (ano_mes_venda r))
                (fun r => (valor_total_venda r, lucro_venda r)) df.
Proof.
  set (g := groupby_sum (fun l => (soma (fst <$> l), soma (snd <$> l)))
                        (fun r => Some (ano_mes_venda r))
                        (fun r => (valor_total_venda r, lucro_venda r)) df).
  destruct (groupby_sum_agrupado (fun l => (soma (fst <$> l), soma (snd <$> l)))
              (fun r => Some (ano_mes_venda r))
              (fun r => (valor_total_venda r, lucro_venda r)) df)
    as (Hs & Hk & Hv). fold g in Hs, Hk, Hv.
  assert (Hid : df_evolucao df = g).
  { unfold df_evolucao. fold g. apply ordena_ja_ordenado.
    clear Hk Hv. induction g as [|x g IH]; [constructor|].
    simpl in Hs. apply StronglySorted_cons in Hs. destruct Hs as [Hx Hs].
    constructor; [auto|]. apply Forall_forall. intros y Hy.
    rewrite Forall_forall in Hx. apply string_ltb_leb, Hx.
    apply list_elem_of_fmap_2. exact Hy. }
  rewrite Hid. repeat split.
  - exact Hs.
  - intros Hm. apply Hk in Hm. destruct Hm as (r & Hr & He).
    injection He as He. eauto.
  - intros (r & Hr & He). apply Hk. exists r. split; [exact Hr | congruence].
  - apply Hv in H. injection H as -> _. rewrite <- list_fmap_compose.
    f_equal. f_equal. apply list_filter_iff. intros r. split; congruence.
  - apply Hv in H. injection H as _ ->. rewrite <- list_fmap_compose.
    f_equal. f_equal. apply list_filter_iff. intros r. split; congruence.
Qed.

(** X13.  The distribution by region has one entry per region that a row
    of the filtered table has, in increasing order of the region; the entry
    holds the sum of the sale totals of the rows of that region.  A row whose
    customer is null belongs to no entry. *)
Theorem vendas_por_regiao df :
  agrupado soma regiao_cliente valor_total_venda df (df_vendas_regiao df).
Proof. apply groupby_sum_agrupado. Qed.

(** *** The rankings *)

(** X14.  Asking for more entries only appends to a ranking: for [n] not
    above [m], the Top [n] is the first [n] entries of the Top [m]. *)
Theorem top_n_prefixo d n m df :
  n <= m ->
  top_valor d n df = take (Z.to_nat n) (top_valor d m df) /\
  top_quantidade d n df = take (Z.to_nat n) (top_quantidade d m df).
Proof.
  intros Hnm. unfold top_valor, top_quantidade, nlargest.
  rewrite !take_take. rewrite !Nat.min_l by lia. split; reflexivity.
Qed.

Lemma top_n_prefixo_witness :
  top_valor PorVendedor 3 Exemplos.df_empate =
    take (Z.to_nat 3) (top_valor PorVendedor 5 Exemplos.df_empate) /\
  top_quantidade PorVendedor 3 Exemplos.df_empate =
    take (Z.to_nat 3) (top_quantidade PorVendedor 5 Exemplos.df_empate).
Proof. apply (top_n_prefixo PorVendedor 3 5 Exemplos.df_empate). lia. Defined.

#[local] Instance texto_menor_antisym : AntiSymm (=) texto_menor.
Proof.
  intros x y Hxy Hyx. apply string_ltb_leb in Hxy, Hyx.
  destruct Hxy as [Hle _]. destruct Hyx as [Hge _].
  apply String.leb_antisym; assumption.
Qed.

Lemma grupos_permutacao chave df df' :
  df ≡ₚ df' -> grupos chave df = grupos chave df'.
Proof.
  intros Hp. apply (StronglySorted_unique texto_menor);
    try apply grupos_ordenados.
  apply NoDup_Permutation; try apply grupos_NoDup.
  intros k. rewrite !grupos_elem, Hp. reflexivity.
Qed.

Lemma foldl_add_permutacao (l l' : list Z) :
  l ≡ₚ l' -> forall a, foldl Z.add a l = foldl Z.add a l'.
Proof.
  induction 1 as [|x l l' _ IH|x y l|l1 l2 l3 _ IH1 _ IH2]; intros a; simpl.
  - reflexivity.
  - apply IH.
  - f_equal. lia.
  - rewrite IH1. apply IH2.
Qed.

(** X15.  The ranking by quantity does not depend on the order of the rows
    of the filtered table, and neither does the list of groups of any
    ranking. *)
Theorem top_quantidade_permutacao d n df df' :
  df ≡ₚ df' ->
  top_quantidade d n df = top_quantidade d n df' /\
  grupos (coluna d) df = grupos (coluna d) df'.
Proof.
  intros Hp. split; [|apply grupos_permutacao; exact Hp].
  unfold top_quantidade. f_equal. unfold groupby_sum.
  rewrite (grupos_permutacao _ _ _ Hp). apply list_fmap_ext. intros _ k _.
  f_equal. unfold soma_int. f_equal. apply foldl_add_permutacao.
  rewrite Hp. reflexivity.
Qed.

Lemma top_quantidade_permutacao_witness :
  top_quantidade PorProduto 3 Exemplos.df_simples =
    top_quantidade PorProduto 3 (reverse Exemplos.df_simples) /\
  grupos (coluna PorProduto) Exemplos.df_simples =
    grupos (coluna PorProduto) (reverse Exemplos.df_simples).
Proof.
  apply (top_quantidade_permutacao PorProduto 3 Exemplos.df_simples
           (reverse Exemplos.df_simples)).
  vm_compute. apply perm_swap.
Defined.

(** *** The date columns *)

Lemma civil_mes_dia dia :
  ((civil dia).1.2, (civil dia).2) =
  mes_dia_do_ciclo ((dia + 719468) mod 146097).
Proof.
  unfold civil, mes_dia_do_ciclo. rewrite Z.mod_eq by lia.
  rewrite (Z.mul_comm 146097). reflexivity.
Qed.

Lemma todos_ate_spec f n :
  snd (todos_ate f n) = Z.pos n /\
  (fst (todos_ate f n) = true -> forall j, 0 <= j < Z.pos n -> f j = true).
Proof.
  unfold todos_ate. induction n as [|n IH] using Pos.peano_ind.
  - simpl. split; [reflexivity|]. intros H j Hj. assert (j = 0) by lia. subst j.
    exact H.
  - rewrite Pos.iter_succ. destruct IH as [Hs Hf].
    destruct (Pos.iter _ (true, 0) n) as [b i]. simpl in *. subst i.
    split; [lia|]. intros H j Hj. apply andb_true_iff in H. destruct H as [Hb Hn].
    destruct (Z.eq_dec j (Z.pos n)) as [->|Hne]; [exact Hn|].
    apply Hf; [exact Hb | lia].
Qed.

(** Every day of the cycle, tried in turn. *)
Lemma ciclo_mes_dia_validos : fst (todos_ate mes_dia_validos 146097) = true.
Proof. vm_cast_no_check (eq_refl true). Qed.

Lemma civil_mes_dia_validos dia :
  1 <= (civil dia).1.2 <= 12 /\ 1 <= (civil dia).2 <= 31.
Proof.
  pose proof (civil_mes_dia dia) as He.
  pose proof (proj2 (todos_ate_spec mes_dia_validos 146097)
                ciclo_mes_dia_validos ((dia + 719468) mod 146097)) as Hall.
  unfold mes_dia_validos in Hall. rewrite <- He in Hall.
  pose proof (Z.mod_pos_bound (dia + 719468) 146097).
  rewrite !andb_true_iff, !Z.leb_le in Hall. lia.
Qed.

Lemma dois_digitos_length m :
  1 <= m <= 12 -> String.length (dois_digitos m) = 2%nat.
Proof.
  intros Hm.
  assert (H : m = 1 \/ m = 2 \/ m = 3 \/ m = 4 \/ m = 5 \/ m = 6 \/ m = 7 \/
              m = 8 \/ m = 9 \/ m = 10 \/ m = 11 \/ m = 12) by lia.
  repeat (destruct H as [->|H]; [reflexivity|]). subst m. reflexivity.
Qed.

(** X16.  In every joined row the month label is the row's year, a dash
    and a month of two digits from 01 to 12. *)
Theorem colunas_de_data ps cs ss vs r :
  r ∈ transformar ps cs ss vs ->
  exists m, 1 <= m <= 12 /\
    String.length (dois_digitos m) = 2%nat /\
    ano_mes_venda r = (pretty (ano_venda r) +:+ "-" +:+ dois_digitos m)%string.
Proof.
  unfold transformar. intros H. apply list_elem_of_fmap in H.
  destruct H as ([[[v p] c] s] & -> & _).
  unfold calcular. cbn [ano_mes_venda ano_venda]. unfold ano_mes, ano.
  pose proof (civil_mes_dia_validos (data (Venda.data_venda v))) as [Hm _].
  destruct (civil (data (Venda.data_venda v))) as [[y m] d]. simpl in *.
  exists m. split; [exact Hm|]. split; [|reflexivity].
  apply dois_digitos_length. exact Hm.
Qed.

Lemma colunas_de_data_witness :
  exists m, 1 <= m <= 12 /\
    String.length (dois_digitos m) = 2%nat /\
    ano_mes_venda (calcular (Exemplos.venda_lapis, Some Exemplos.lapis,
                             Some Exemplos.ana, Some Exemplos.zeca)) =
    (pretty (ano_venda (calcular (Exemplos.venda_lapis, Some Exemplos.lapis,
                                  Some Exemplos.ana, Some Exemplos.zeca)))
     +:+ "-" +:+ dois_digitos m)%string.
Proof.
  apply (colunas_de_data [Exemplos.caneta; Exemplos.lapis; Exemplos.bola]
           [Exemplos.ana] [Exemplos.zeca; Exemplos.beto]
           [Exemplos.venda_lapis; Exemplos.venda_caneta]).
  vm_compute. left.
Defined.

(** *** From the generator to the dashboard *)

Lemma resolvidas_completas ps cs ss vs :
  (forall v, v ∈ vs ->
     Venda.id_produto v ∈ (Produto.id_produto <$> ps) /\
     Venda.id_cliente v ∈ (Cliente.id_cliente <$> cs) /\
     Venda.id_vendedor v ∈ (Vendedor.id_vendedor <$> ss)) ->
  Forall completa (transformar ps cs ss vs).
Proof.
  intros Hfk. apply Forall_forall. intros r Hr.
  destruct (transformar_linha ps cs ss vs r Hr) as (Hv & Hp & Hcl & Hs).
  destruct (Hfk _ Hv) as (Fp & Fc & Fs). unfold completa, casado in *.
  destruct (produto r), (cliente r), (vendedor r);
    repeat split; eauto; contradiction.
Qed.

Lemma chave_unica_na_tabela {A} (chave : A -> Z) (l : list A) x y :
  NoDup (chave <$> l) -> x ∈ l -> y ∈ l -> chave x = chave y -> x = y.
Proof.
  induction l as [|z l IH]; intros Hnd Hx Hy He; [inversion Hx|].
  simpl in Hnd. apply NoDup_cons in Hnd. destruct Hnd as [Hz Hnd].
  apply elem_of_cons in Hx. apply elem_of_cons in Hy.
  destruct Hx as [->|Hx], Hy as [->|Hy].
  - reflexivity.
  - exfalso. apply Hz. rewrite He. apply list_elem_of_fmap_2. exact Hy.
  - exfalso. apply Hz. rewrite <- He. apply list_elem_of_fmap_2. exact Hx.
  - apply IH; assumption.
Qed.

(** X17.  The dashboard on the tables of any run of the generator, read
    back as they were written: the joined table has exactly the generated
    sales, one row each and in order; no row has a null attribute; the KPI
    counts as many transactions as sales were configured; the sidebar block
    raises nothing, whatever the widgets hold; and each row's sale total is
    [round(preco_venda_unitario * quantidade_vendida, 2)] for the price of
    the product joined to it. *)
Theorem dados_gerados_no_painel (w : Gerador.Fonte) (hoje : Z) (b : Barra) :
  exists t w', Gerador.gerar w = Ok (t, w') /\
    let df := transformar (produtos_df t) (clientes_df t) (vendedores_df t)
                          (vendas_df t) in
    df_merged_de {| produtos_csv := Some (produtos_df t);
                    clientes_csv := Some (clientes_df t);
                    vendedores_csv := Some (vendedores_df t);
                    vendas_csv := Some (vendas_df t);
                    fornecedores_csv := Some (fornecedores_df t) |} = Some df /\
    venda <$> df = vendas_df t /\
    Forall completa df /\
    num_transacoes (kpis df) = Gerador.NUM_VENDAS /\
    (exists out, df_filtered_de hoje b df = Ok out) /\
    forall r, r ∈ df ->
      exists p, produto r = Some p /\
        valor_total_venda r =
          round2 (Produto.preco_venda_unitario p *
                  float_of_Z (quantidade_vendida r))%float.
Proof.
  destruct (gerar_espec w) as (t & w' & Hrun & Hint). exists t, w'.
  split; [exact Hrun|]. destruct Hint as [K1 K2 K3 K4 K5 _ Hvs].
  rewrite Forall_forall in Hvs. cbv zeta.
  assert (Nps : NoDup (Produto.id_produto <$> produtos_df t))
    by (rewrite K2; apply NoDup_seqZ).
  assert (Ncs : NoDup (Cliente.id_cliente <$> clientes_df t))
    by (rewrite K3; apply NoDup_seqZ).
  assert (Nss : NoDup (Vendedor.id_vendedor <$> vendedores_df t))
    by (rewrite K4; apply NoDup_seqZ).
  assert (Hvenda : venda <$> transformar (produtos_df t) (clientes_df t)
                     (vendedores_df t) (vendas_df t) = vendas_df t).
  { rewrite transformar_vendas. rewrite !merge_left_unico by assumption.
    reflexivity. }
  assert (Hc : Forall completa (transformar (produtos_df t) (clientes_df t)
                                  (vendedores_df t) (vendas_df t))).
  { apply resolvidas_completas. intros v Hv.
    destruct (Hvs v Hv) as [Hcl Hs _ (p & Hp & Hid & _)].
    repeat split; try assumption.
    rewrite <- Hid. apply list_elem_of_fmap_2. exact Hp. }
  split; [reflexivity|]. split; [exact Hvenda|]. split; [exact Hc|]. split; [|split].
  - unfold kpis. cbn [num_transacoes]. unfold id_venda, nunique.
    rewrite (list_fmap_compose venda Venda.id_venda), Hvenda, K5.
    rewrite unique_NoDup_id by apply NoDup_seqZ.
    unfold Gerador.range1. rewrite length_seqZ. reflexivity.
  - destruct (completa_uniforme _ Hc) as (Up & Uc & Uv).
    apply filtro_Ok_uniforme; assumption.
  - intros r Hr.
    destruct (transformar_linha _ _ _ _ r Hr) as (Hv & Hp & _ & _).
    destruct (Hvs _ Hv) as [_ _ _ (p' & Hp' & Hid' & Hval)].
    unfold casado in Hp. destruct (produto r) as [p|] eqn:Epr.
    + destruct Hp as [Hp Hid]. exists p. split; [reflexivity|].
      assert (p = p') as ->
        by (eapply (chave_unica_na_tabela Produto.id_produto); eauto; congruence).
      exact Hval.
    + exfalso. apply Hp. rewrite <- Hid'. apply list_elem_of_fmap_2. exact Hp'.
Qed.

(** *** Month labels in order of time *)

Lemma civil_indice dia :
  12 * (civil dia).1.1 + (civil dia).1.2 =
  4800 * ((dia + 719468) / 146097) +
  indice_do_ciclo ((dia + 719468) mod 146097).
Proof.
  unfold civil, indice_do_ciclo. rewrite Z.mod_eq by lia.
  rewrite (Z.mul_comm 146097). cbv zeta. cbn [fst snd]. ring.
Qed.

Lemma ciclo_passo_crescente : fst (todos_ate passo_crescente 146096) = true.
Proof. vm_cast_no_check (eq_refl true). Qed.

Lemma civil_indice_passo dia :
  12 * (civil dia).1.1 + (civil dia).1.2 <=
  12 * (civil (dia + 1)).1.1 + (civil (dia + 1)).1.2.
Proof.
  rewrite !civil_indice.
  replace (dia + 1 + 719468) with (dia + 719468 + 1) by ring.
  set (z := dia + 719468).
  pose proof (Z.mod_pos_bound z 146097 ltac:(lia)) as Hr.
  pose proof (Z.div_mod z 146097 ltac:(lia)) as Hz.
  destruct (Z.eq_dec (z mod 146097) 146096) as [He|Hne].
  - assert (Hq : (z + 1) / 146097 = z / 146097 + 1)
      by (symmetry; apply (Z.div_unique _ _ _ 0); lia).
    assert (Hm : (z + 1) mod 146097 = 0)
      by (symmetry; apply (Z.mod_unique _ _ (z / 146097 + 1)); lia).
    rewrite Hq, Hm, He.
    assert (Hb : (indice_do_ciclo 146096 <=? 4800 + indice_do_ciclo 0) = true)
      by (vm_compute; reflexivity).
    apply Z.leb_le in Hb. lia.
  - assert (Hq : (z + 1) / 146097 = z / 146097)
      by (symmetry; apply (Z.div_unique _ _ _ (z mod 146097 + 1)); lia).
    assert (Hm : (z + 1) mod 146097 = z mod 146097 + 1)
      by (symmetry; apply (Z.mod_unique _ _ (z / 146097)); lia).
    rewrite Hq, Hm.
    pose proof (proj2 (todos_ate_spec passo_crescente 146096)
                  ciclo_passo_crescente (z mod 146097) ltac:(lia)) as Hp.
    unfold passo_crescente in Hp. apply Z.leb_le in Hp. lia.
Qed.

Lemma civil_indice_crescente dia dia' :
  dia <= dia' ->
  12 * (civil dia).1.1 + (civil dia).1.2 <=
  12 * (civil dia').1.1 + (civil dia').1.2.
Proof.
  intros Hle. replace dia' with (dia + Z.of_nat (Z.to_nat (dia' - dia))) by lia.
  induction (Z.to_nat (dia' - dia)) as [|n IH].
  - rewrite Z.add_0_r. lia.
  - etransitivity; [exact IH|].
    replace (dia + Z.of_nat (S n)) with (dia + Z.of_nat n + 1) by lia.
    apply civil_indice_passo.
Qed.

(** Every year from 1000 to 9999, written out in turn. *)
Lemma anos_escritos : fst (todos_ate ano_escrito 10000) = true.
Proof. vm_cast_no_check (eq_refl true). Qed.

Lemma pretty_quatro_digitos y :
  1000 <= y <= 9999 -> pretty y = quatro_digitos y.
Proof.
  intros Hy.
  pose proof (proj2 (todos_ate_spec ano_escrito 10000) anos_escritos y
                ltac:(lia)) as H.
  unfold ano_escrito in H. apply orb_true_iff in H. destruct H as [H|H].
  - apply Z.ltb_lt in H. lia.
  - apply String.eqb_eq. exact H.
Qed.

Lemma dois_digitos_escrito m :
  1 <= m <= 12 ->
  dois_digitos m = String (digito (m / 10)) (String (digito (m mod 10)) "").
Proof.
  intros Hm.
  assert (H : m = 1 \/ m = 2 \/ m = 3 \/ m = 4 \/ m = 5 \/ m = 6 \/ m = 7 \/
              m = 8 \/ m = 9 \/ m = 10 \/ m = 11 \/ m = 12) by lia.
  repeat (destruct H as [->|H]; [reflexivity|]). subst m. reflexivity.
Qed.

Lemma digito_compare a b :
  0 <= a <= 9 -> 0 <= b <= 9 ->
  Ascii.compare (digito a) (digito b) = (a ?= b).
Proof.
  intros Ha Hb. unfold Ascii.compare, digito.
  rewrite !N_ascii_embedding by lia.
  rewrite <- N2Z.inj_compare, !N2Z.inj_add, !Z2N.id by lia.
  apply Z.add_compare_mono_l.
Qed.

Lemma rotulos_em_ordem y m y' m' :
  1000 <= y <= 9999 -> 1000 <= y' <= 9999 -> 1 <= m <= 12 -> 1 <= m' <= 12 ->
  12 * y + m <= 12 * y' + m' ->
  String.leb (pretty y +:+ "-" +:+ dois_digitos m)
             (pretty y' +:+ "-" +:+ dois_digitos m') = true.
Proof.
  intros Hy Hy' Hm Hm' Hle.
  rewrite !pretty_quatro_digitos, !dois_digitos_escrito by assumption.
  unfold quatro_digitos, String.leb.
  cbv beta iota delta [String.append String.compare].
  assert (Dy : 0 <= y / 1000 <= 9 /\ 0 <= y / 100 mod 10 <= 9 /\
               0 <= y / 10 mod 10 <= 9 /\ 0 <= y mod 10 <= 9 /\
               y = 1000 * (y / 1000) + 100 * (y / 100 mod 10) +
                   10 * (y / 10 mod 10) + y mod 10)
    by (Z.div_mod_to_equations; lia).
  assert (Dy' : 0 <= y' / 1000 <= 9 /\ 0 <= y' / 100 mod 10 <= 9 /\
                0 <= y' / 10 mod 10 <= 9 /\ 0 <= y' mod 10 <= 9 /\
                y' = 1000 * (y' / 1000) + 100 * (y' / 100 mod 10) +
                     10 * (y' / 10 mod 10) + y' mod 10)
    by (Z.div_mod_to_equations; lia).
  assert (Dm : 0 <= m / 10 <= 9 /\ 0 <= m mod 10 <= 9 /\
               m = 10 * (m / 10) + m mod 10)
    by (Z.div_mod_to_equations; lia).
  assert (Dm' : 0 <= m' / 10 <= 9 /\ 0 <= m' mod 10 <= 9 /\
                m' = 10 * (m' / 10) + m' mod 10)
    by (Z.div_mod_to_equations; lia).
  destruct Dy as (A1 & A2 & A3 & A4 & Ey), Dy' as (B1 & B2 & B3 & B4 & Ey'),
           Dm as (M1 & M2 & Em), Dm' as (N1 & N2 & Em').
  rewrite !digito_compare by assumption.
  replace (Ascii.compare "-" "-") with Eq by reflexivity.
  generalize dependent (y / 1000). generalize dependent (y / 100 mod 10).
  generalize dependent (y / 10 mod 10). generalize dependent (y mod 10).
  generalize dependent (y' / 1000). generalize dependent (y' / 100 mod 10).
  generalize dependent (y' / 10 mod 10). generalize dependent (y' mod 10).
  generalize dependent (m / 10). generalize dependent (m mod 10).
  generalize dependent (m' / 10). generalize dependent (m' mod 10).
  intros. subst y y' m m'.
  repeat match goal with
  | |- context [?a ?= ?b] =>
      destruct (Z.compare_spec a b); [subst| reflexivity | exfalso; lia]
  end.
  reflexivity.
Qed.

(** X18.  Month labels sort as time runs: of two instants in order, in
    years of four digits, the earlier one's [YYYY-MM] label is not after the
    later one's in the order of strings, by which [sort_values] arranges the
    monthly series. *)
Theorem meses_em_ordem (a b : Z) :
  a <= b -> 1000 <= ano a -> ano b <= 9999 ->
  String.leb (ano_mes a) (ano_mes b) = true.
Proof.
  unfold ano, ano_mes. intros Hab Ha Hb.
  assert (Hd : data a <= data b)
    by (unfold data, segundos_por_dia; apply Z.div_le_mono; lia).
  pose proof (civil_indice_crescente _ _ Hd) as Hi.
  pose proof (civil_mes_dia_validos (data a)) as [Hma _].
  pose proof (civil_mes_dia_validos (data b)) as [Hmb _].
  destruct (civil (data a)) as [[y m] d], (civil (data b)) as [[y' m'] d'].
  cbn [fst snd] in *.
  apply rotulos_em_ordem; lia.
Qed.

Lemma meses_em_ordem_witness :
  String.leb (ano_mes Exemplos.dia14) (ano_mes Exemplos.dia15) = true.
Proof.
  apply (meses_em_ordem Exemplos.dia14 Exemplos.dia15); vm_compute; congruence.
Defined.

(** *** The columns of the product detail table *)

Lemma acrescenta_se_foldl sel (pares : list (string * string)) cols :
  foldl (fun cols p => Detalhes.acrescenta_se sel p.1 p.2 cols) cols pares =
  cols ++ (filter (fun p => p.1 ∈ sel) pares).*2.
Proof.
  revert cols. induction pares as [|p pares IH]; intros cols.
  - simpl. rewrite app_nil_r. reflexivity.
  - simpl. rewrite IH, filter_cons. unfold Detalhes.acrescenta_se.
    destruct (decide (p.1 ∈ sel)); [|reflexivity].
    rewrite <- app_assoc. reflexivity.
Qed.

Lemma cols_to_show_in_table_filtro sel :
  Detalhes.cols_to_show_in_table sel =
  (filter (fun p => p.1 ∈ sel) Detalhes.opcoes_e_colunas).*2.
Proof.
  rewrite <- (app_nil_l (_.*2)), <- acrescenta_se_foldl. reflexivity.
Qed.

Lemma getitem_Ok colunas cols :
  cols ⊆ colunas -> Detalhes.getitem colunas cols = Ok cols.
Proof.
  intros H. unfold Detalhes.getitem.
  replace (forallb _ cols) with true; [reflexivity|].
  symmetry. apply forallb_forall. intros c Hc. apply bool_decide_eq_true_2.
  apply H. apply list_elem_of_In. exact Hc.
Qed.

(** X19.  Whatever columns are picked for the product detail table, and in
    whatever order, the table shows columns of the aggregated frame under
    their display names, in the fixed order of the display map and none
    twice: picking them raises no [KeyError], the result depends only on
    which options are picked, and picking distinct options of the
    multiselect gives as many columns as options. *)
Theorem colunas_da_tabela_de_produtos (sel : list string) :
  sel <> [] ->
  exists cols, Detalhes.df_display_produtos sel = Some (Ok cols) /\
    cols `sublist_of` Detalhes.display_cols_itens.*2 /\
    (forall sel', (forall x, x ∈ sel <-> x ∈ sel') ->
       Detalhes.df_display_produtos sel' = Some (Ok cols)) /\
    (NoDup sel -> sel ⊆ Detalhes.cols_produtos_disponiveis ->
     length cols = length sel).
Proof.
  intros Hne.
  assert (Hsub : Detalhes.cols_to_show_in_table sel `sublist_of`
                 drop 1 Detalhes.colunas_df_produtos_detalhes).
  { rewrite cols_to_show_in_table_filtro.
    change (drop 1 Detalhes.colunas_df_produtos_detalhes)
      with (Detalhes.opcoes_e_colunas.*2).
    apply fmap_sublist, sublist_filter. }
  assert (Hget : Detalhes.getitem Detalhes.colunas_df_produtos_detalhes
                   (Detalhes.cols_to_show_in_table sel) =
                 Ok (Detalhes.cols_to_show_in_table sel)).
  { apply getitem_Ok. intros c Hc.
    apply (elem_of_sublist _ _ _ Hc) in Hsub.
    apply (elem_of_sublist _ _ _ Hsub). apply sublist_drop. }
  exists (Detalhes.rename Detalhes.display_cols_map
            (Detalhes.cols_to_show_in_table sel)).
  split; [|split; [|split]].
  - destruct sel; [contradiction|]. unfold Detalhes.df_display_produtos.
    rewrite Hget. reflexivity.
  - change (Detalhes.display_cols_itens.*2) with
      (Detalhes.rename Detalhes.display_cols_map
         (drop 1 Detalhes.colunas_df_produtos_detalhes)).
    unfold Detalhes.rename. apply fmap_sublist. exact Hsub.
  - intros sel' Heq. destruct sel' as [|x sel'].
    + destruct sel as [|y sel]; [contradiction|].
      exfalso. apply (not_elem_of_nil y). apply Heq. left.
    + assert (He : Detalhes.cols_to_show_in_table (x :: sel') =
                   Detalhes.cols_to_show_in_table sel).
      { rewrite !cols_to_show_in_table_filtro. f_equal.
        apply list_filter_iff. intros p. symmetry. apply Heq. }
      unfold Detalhes.df_display_produtos. rewrite He, Hget. reflexivity.
  - intros Hnd Hin. unfold Detalhes.rename.
    rewrite length_fmap, cols_to_show_in_table_filtro, length_fmap.
    rewrite <- (length_fmap fst).
    apply Permutation_length. apply NoDup_Permutation.
    + apply (sublist_NoDup _ (Detalhes.opcoes_e_colunas.*1)).
      * apply (bool_decide_unpack _). vm_compute. exact I.
      * apply fmap_sublist, sublist_filter.
    + exact Hnd.
    + intros x. rewrite list_elem_of_fmap. split.
      * intros (p & -> & Hp). apply list_elem_of_filter in Hp. tauto.
      * intros Hx. pose proof (Hin x Hx) as Hd.
        change Detalhes.cols_produtos_disponiveis
          with (Detalhes.opcoes_e_colunas.*1) in Hd.
        apply list_elem_of_fmap in Hd. destruct Hd as (p & -> & Hp).
        exists p. split; [reflexivity|]. apply list_elem_of_filter. tauto.
Qed.

Lemma colunas_da_tabela_de_produtos_witness :
  exists cols,
    Detalhes.df_display_produtos Detalhes.selecao_padrao = Some (Ok cols) /\
    cols `sublist_of` Detalhes.display_cols_itens.*2 /\
    (forall sel', (forall x, x ∈ Detalhes.selecao_padrao <-> x ∈ sel') ->
       Detalhes.df_display_produtos sel' = Some (Ok cols)) /\
    (NoDup Detalhes.selecao_padrao ->
     Detalhes.selecao_padrao ⊆ Detalhes.cols_produtos_disponiveis ->
     length cols = length Detalhes.selecao_padrao).
Proof.
  apply (colunas_da_tabela_de_produtos Detalhes.selecao_padrao).
  vm_compute. congruence.
Defined.

End PainelCorreto.
